(** * Ledger queries of the channel package (pkg/fab/channel/ledger.go)

    A shallow embedding of the ledger client: the response filter, the
    chaincode query dispatch, the block and transaction queries and the
    configuration-block query with its nested unwrap, followed by the
    properties of these functions.

    Conventions of the embedding:
    - a Go [error] is an [option error_val]; [None] is the nil error;
    - a pointer that may be nil is an [option]; dereferencing [None]
      panics;
    - a function that may panic or that calls a collaborator returns in
      the monad [M], which carries the trace of collaborator calls and
      either the returned value or the panic;
    - a slice is the list of its elements; where the code shares one
      backing array between two slices the array is modelled as an
      explicit store. *)

From Stdlib Require Import ZArith NArith String List Lia.
From Stdlib.Strings Require Import Byte.
From stdpp Require Import base list strings pretty.

Local Open Scope string_scope.
Local Open Scope list_scope.

(** ** Bytes, errors *)

Definition bytes := list Byte.byte.

(** The errors built by github.com/pkg/errors and by the multi package,
    kept as the constructor calls that made them. [errors_Errorf] keeps
    the format string and its arguments apart. *)
#[warnings="-register-all"]
Inductive error_val : Type :=
| errors_New (msg : string)
| errors_Errorf (format : string) (args : list fmt_arg)
| errors_Wrap (cause : error_val) (msg : string)
| errors_WithMessage (cause : error_val) (msg : string)
| multi_Errors (errs : list error_val)
with fmt_arg : Type :=
| ArgString (s : string)
| ArgInt (n : Z)
| ArgError (e : error_val).

Definition error := option error_val.

Inductive result (A : Type) : Type :=
| Ok (a : A)
| Err (e : error_val).
Arguments Ok {A} a.
Arguments Err {A} e.

(** The constructors of github.com/pkg/errors as functions to [error]:
    [Wrap] and [WithMessage] of the nil error are nil. *)
Module errors.

Definition New (msg : string) : error := Some (errors_New msg).

Definition Errorf (format : string) (args : list fmt_arg) : error :=
  Some (errors_Errorf format args).

Definition Wrap (err : error) (msg : string) : error :=
  match err with
  | Some e => Some (errors_Wrap e msg)
  | None => None
  end.

Definition WithMessage (err : error) (msg : string) : error :=
  match err with
  | Some e => Some (errors_WithMessage e msg)
  | None => None
  end.

End errors.

(** [err != nil] *)
Definition not_nil (err : error) : bool :=
  match err with Some _ => true | None => false end.

Module multi.

(** Modelled from the spec: the package pkg/util/errors/multi (type
    Errors, functions New and Append) is not among the sources. The
    aggregated error is an ordered collection of per-target failures:
    [New] keeps the non-nil errors, yields nil for none of them and the
    error itself for a single one; [Append] adds one error at the end of
    the collection. *)
Definition New (errs : list error) : error :=
  match omap id errs with
  | [] => None
  | [e] => Some e
  | l => Some (multi_Errors l)
  end.

Definition Append (errs err : error) : error :=
  match errs with
  | Some (multi_Errors m) =>
      match err with
      | None => errs
      | Some e => Some (multi_Errors (m ++ [e]))
      end
  | _ => New [errs; err]
  end.

(** The entries of an aggregated error, in order. *)
Definition entries (errs : error) : list error_val :=
  match errs with
  | None => []
  | Some (multi_Errors m) => m
  | Some e => [e]
  end.

End multi.

(** ** Messages *)

(** fab.TransactionProposalResponse embeds a *pb.ProposalResponse, whose
    generated getter [GetResponse] is nil-safe; the field read
    [.Payload] on its result is not. *)
Record pb_Response := { Response_Payload : bytes }.

Record pb_ProposalResponse := { ProposalResponse_Response : option pb_Response }.

Record TransactionProposalResponse := {
  Endorser : string;
  Status : Z;
  ProposalResponse : option pb_ProposalResponse
}.

#[export] Instance byte_eq_dec : EqDecision Byte.byte := Byte.byte_eq_dec.

#[export] Instance pb_Response_eq_dec : EqDecision pb_Response.
Proof. solve_decision. Defined.

#[export] Instance pb_ProposalResponse_eq_dec : EqDecision pb_ProposalResponse.
Proof. solve_decision. Defined.

#[export] Instance TransactionProposalResponse_eq_dec :
  EqDecision TransactionProposalResponse.
Proof. solve_decision. Defined.

Definition GetResponse (m : option pb_ProposalResponse) : option pb_Response :=
  match m with
  | Some m => ProposalResponse_Response m
  | None => None
  end.

(** The protobuf messages of the configuration block, with the fields the
    ledger client reads. *)
Record BlockData := { BlockData_Data : list bytes }.

Record Block := { Block_Data : option BlockData }.

Record Envelope := { Envelope_Payload : bytes; Envelope_Signature : bytes }.

Record Header := { Header_ChannelHeader : bytes; Header_SignatureHeader : bytes }.

Record Payload := { Payload_Header : option Header; Payload_Data : bytes }.

Record ChannelHeader := { ChannelHeader_Type : Z; ChannelHeader_ChannelId : string }.

Definition HeaderType_CONFIG : Z := 1.

Definition http_StatusOK : Z := 200.

Record ChaincodeInvokeRequest := {
  ChaincodeID : string;
  Fcn : string;
  Args : list bytes
}.

(** proto.Unmarshal into a fresh message of type [A]. *)
Class ProtoMessage (A : Type) := proto_Unmarshal : bytes -> result A.

(** ResponseVerifier checks transaction proposal response(s). *)
Record ResponseVerifier := {
  Verify : TransactionProposalResponse -> error;
  Match : list TransactionProposalResponse -> error
}.

(** ** Panics and the trace of collaborator calls *)

Inductive panic : Type :=
| nil_dereference
| index_out_of_range (index len : nat).

Inductive outcome (A : Type) : Type :=
| Returns (a : A)
| Panics (p : panic).
Arguments Returns {A} a.
Arguments Panics {A} p.

Definition M (Event A : Type) : Type := (list Event * outcome A)%type.

Section Trace.
Context {Event : Type}.

#[export] Instance M_ret : MRet (M Event) := fun A a => ([], Returns a).

#[export] Instance M_bind : MBind (M Event) := fun A B k m =>
  match m with
  | (t, Returns a) => let '(t', o) := k a in (t ++ t', o)
  | (t, Panics p) => (t, Panics p)
  end.

Definition emit (e : Event) : M Event unit := ([e], Returns tt).

Definition throw {A} (p : panic) : M Event A := ([], Panics p).

(** [*p] *)
Definition deref {A} (p : option A) : M Event A :=
  match p with
  | Some a => mret a
  | None => throw nil_dereference
  end.

(** [s[i]] *)
Definition index {A} (s : list A) (i : nat) : M Event A :=
  match s !! i with
  | Some a => mret a
  | None => throw (index_out_of_range i (length s))
  end.

Definition trace {A} (m : M Event A) : list Event := fst m.
Definition value {A} (m : M Event A) : outcome A := snd m.
End Trace.

(** ** The ledger client *)

(** The calls to collaborators that a query makes, in order. *)
Inductive Event (Target : Type) : Type :=
| EvNewHeader (channelID : string)
| EvCreateProposal (request : ChaincodeInvokeRequest)
| EvSendProposal (targets : list Target)
| EvMatch (responses : list TransactionProposalResponse).
Arguments EvNewHeader {Target} channelID.
Arguments EvCreateProposal {Target} request.
Arguments EvSendProposal {Target} targets.
Arguments EvMatch {Target} responses.

(** The store shared by [responses] and [filteredResponses] inside
    filterResponses: [filteredResponses := responses[:0]] has length 0
    and the capacity of [responses], so every append writes into the
    array of [responses]. *)
Record filtering := {
  store : list TransactionProposalResponse;
  filtered_len : nat;
  errs_acc : error
}.

(** The slice [filteredResponses] as a view of the store. *)
Definition filteredResponses (st : filtering) : list TransactionProposalResponse :=
  take (filtered_len st) (store st).

(** [filteredResponses = append(filteredResponses, response)], within
    capacity. *)
Definition append_filtered (st : filtering) (response : TransactionProposalResponse)
  : filtering :=
  {| store := <[filtered_len st := response]> (store st);
     filtered_len := S (filtered_len st);
     errs_acc := errs_acc st |}.

(** [errs = multi.Append(errs, err)] *)
Definition append_error (st : filtering) (err : error) : filtering :=
  {| store := store st;
     filtered_len := filtered_len st;
     errs_acc := multi.Append (errs_acc st) err |}.

(** One iteration of [for _, response := range responses], at index
    [i]: the element is read from the store as it is at that time. *)
Definition filter_iteration (verifier : option ResponseVerifier)
    (st : filtering) (i : nat) : filtering :=
  match store st !! i with
  | None => st (* not reached: i < len(responses) *)
  | Some response =>
      if (Status response =? http_StatusOK)%Z then
        match verifier with
        | Some v =>
            match Verify v response with
            | Some err =>
                append_error st
                  (errors.Errorf "failed to verify response from %s: %s"
                     [ArgString (Endorser response); ArgError err])
            | None => append_filtered st response
            end
        | None => append_filtered st response
        end
      else
        append_error st
          (errors.Errorf "bad status from %s (%d)"
             [ArgString (Endorser response); ArgInt (Status response)])
  end.

(** The loop of filterResponses, on the store. *)
Definition filterResponses_loop (responses : list TransactionProposalResponse)
    (errs : error) (verifier : option ResponseVerifier) : filtering :=
  foldl (filter_iteration verifier)
    {| store := responses; filtered_len := 0; errs_acc := errs |}
    (seq 0 (length responses)).

Definition filterResponses (responses : list TransactionProposalResponse)
    (errs : error) (verifier : option ResponseVerifier)
  : list TransactionProposalResponse * error :=
  let st := filterResponses_loop responses errs verifier in
  (filteredResponses st, errs_acc st).

(** The state of the loop after its first [i] iterations. *)
Definition after (verifier : option ResponseVerifier)
    (responses : list TransactionProposalResponse) (errs : error) (i : nat)
  : filtering :=
  foldl (filter_iteration verifier)
    {| store := responses; filtered_len := 0; errs_acc := errs |} (seq 0 i).

(** What the filter is to do with one response: keep it, or record one
    error for it. *)
Definition retained (verifier : option ResponseVerifier)
    (response : TransactionProposalResponse) : bool :=
  (Status response =? http_StatusOK)%Z &&
  match verifier with
  | Some v => negb (not_nil (Verify v response))
  | None => true
  end.

Definition rejection (verifier : option ResponseVerifier)
    (response : TransactionProposalResponse) : option error_val :=
  if (Status response =? http_StatusOK)%Z then
    match verifier with
    | Some v =>
        match Verify v response with
        | Some err =>
            Some (errors_Errorf "failed to verify response from %s: %s"
                    [ArgString (Endorser response); ArgError err])
        | None => None
        end
    | None => None
    end
  else
    Some (errors_Errorf "bad status from %s (%d)"
            [ArgString (Endorser response); ArgInt (Status response)]).

Definition createChaincodeInvokeRequest : ChaincodeInvokeRequest :=
  {| ChaincodeID := "lscc"; Fcn := "getchaincodes"; Args := [] |}.

(** Ledger is a client that provides access to the underlying ledger of
    a channel. *)
Record Ledger := { chName : string }.

Definition NewLedger (chName : string) : option Ledger * error :=
  (Some {| chName := chName |}, None).

(** What the ledger client calls outside this file:
    contextImpl.RequestClientContext and the txn package, over the types
    fab.ProposalProcessor, reqContext.Context, context.Client,
    *txn.TransactionHeader and *fab.TransactionProposal. *)
Class Transport (Target ReqCtx ClientCtx TxnHeader Proposal : Type) := {
  RequestClientContext : ReqCtx -> option ClientCtx;
  txn_NewHeader : ClientCtx -> string -> result TxnHeader;
  txn_CreateChaincodeInvokeProposal :
    TxnHeader -> ChaincodeInvokeRequest -> result Proposal;
  txn_SendProposal :
    ReqCtx -> Proposal -> list Target ->
    list TransactionProposalResponse * error
}.

(** The request builders of the package (cscc and qscc requests), which
    live in another file. *)
Class RequestBuilders := {
  createConfigBlockInvokeRequest : string -> ChaincodeInvokeRequest;
  createBlockByHashInvokeRequest : string -> bytes -> ChaincodeInvokeRequest;
  createBlockByTxIDInvokeRequest : string -> string -> ChaincodeInvokeRequest;
  createTransactionByIDInvokeRequest : string -> string -> ChaincodeInvokeRequest
}.

Section Ledger.
Context {Target ReqCtx ClientCtx TxnHeader Proposal : Type}.
(** common.ConfigEnvelope and pb.ProcessedTransaction, which the client
    decodes and hands over without reading. *)
Context {ConfigEnvelope ProcessedTransaction : Type}.
Context {transport : Transport Target ReqCtx ClientCtx TxnHeader Proposal}
        {builders : RequestBuilders}.
Context {Block_msg : ProtoMessage Block}
        {Envelope_msg : ProtoMessage Envelope}
        {Payload_msg : ProtoMessage Payload}
        {ChannelHeader_msg : ProtoMessage ChannelHeader}
        {ConfigEnvelope_msg : ProtoMessage ConfigEnvelope}
        {ProcessedTransaction_msg : ProtoMessage ProcessedTransaction}.

Local Abbreviation TPR := TransactionProposalResponse.
Local Abbreviation Go := (M (Event Target)).

(** [tpr.ProposalResponse.GetResponse().Payload] *)
Definition response_payload (tpr : TPR) : Go bytes :=
  r ← deref (GetResponse (ProposalResponse tpr));
  mret (Response_Payload r).

Definition queryChaincode (reqCtx : ReqCtx) (channelID : string)
    (request : ChaincodeInvokeRequest) (targets : list Target)
    (verifier : option ResponseVerifier) : Go (list TPR * error) :=
  match RequestClientContext reqCtx with
  | None =>
      mret ([], errors.New
        "failed get client context from reqContext for signProposal")
  | Some ctx =>
      emit (EvNewHeader channelID);;
      match txn_NewHeader ctx channelID with
      | Err err =>
          mret ([], errors.WithMessage (Some err) "creation of transaction ID failed")
      | Ok txh =>
          emit (EvCreateProposal request);;
          match txn_CreateChaincodeInvokeProposal txh request with
          | Err err => mret ([], errors.WithMessage (Some err) "NewProposal failed")
          | Ok tp =>
              emit (EvSendProposal targets);;
              let '(tprs, errs) := txn_SendProposal reqCtx tp targets in
              mret (filterResponses tprs errs verifier)
          end
      end
  end.

Definition createCommonBlock (tpr : TPR) : Go (option Block * error) :=
  payload ← response_payload tpr;
  match proto_Unmarshal (A := Block) payload with
  | Err err =>
      mret (None, errors.Wrap (Some err)
        "unmarshal of transaction proposal response failed")
  | Ok response => mret (Some response, None)
  end.

Definition createProcessedTransaction (tpr : TPR)
  : Go (option ProcessedTransaction * error) :=
  payload ← response_payload tpr;
  match proto_Unmarshal (A := ProcessedTransaction) payload with
  | Err err =>
      mret (None, errors.Wrap (Some err)
        "unmarshal of transaction proposal response failed")
  | Ok response => mret (Some response, None)
  end.

Definition createConfigEnvelope (data : bytes)
  : Go (option ConfigEnvelope * error) :=
  match proto_Unmarshal (A := Envelope) data with
  | Err err =>
      mret (None, errors.Wrap (Some err) "unmarshal envelope from config block failed")
  | Ok envelope =>
      match proto_Unmarshal (A := Payload) (Envelope_Payload envelope) with
      | Err err =>
          mret (None, errors.Wrap (Some err) "unmarshal payload from envelope failed")
      | Ok payload =>
          header ← deref (Payload_Header payload);
          match proto_Unmarshal (A := ChannelHeader) (Header_ChannelHeader header) with
          | Err err =>
              mret (None, errors.Wrap (Some err) "unmarshal payload from envelope failed")
          | Ok channelHeader =>
              if negb (ChannelHeader_Type channelHeader =? HeaderType_CONFIG)%Z then
                mret (None, errors.New "block must be of type 'CONFIG'")
              else
                match proto_Unmarshal (A := ConfigEnvelope) (Payload_Data payload) with
                | Err err =>
                    mret (None, errors.Wrap (Some err) "unmarshal config envelope failed")
                | Ok configEnvelope => mret (Some configEnvelope, None)
                end
          end
      end
  end.

(** [verifier.Match(tprs)]: a method call on a nil interface panics. *)
Definition call_Match (verifier : option ResponseVerifier) (tprs : list TPR)
  : Go error :=
  v ← deref verifier;
  emit (EvMatch tprs);;
  mret (Match v tprs).

(** One iteration of the loop of getConfigBlocks; [responses] holds
    pointers to blocks. *)
Definition getConfigBlocks_iteration (acc : list (option Block) * error) (tpr : TPR)
  : Go (list (option Block) * error) :=
  let '(responses, errs) := acc in
  '(r, err) ← createCommonBlock tpr;
  match err with
  | Some _ =>
      mret (responses,
            multi.Append errs
              (errors.WithMessage err ("From target: " ++ Endorser tpr)%string))
  | None => mret (responses ++ [r], errs)
  end.

Definition getConfigBlocks (tprs : list TPR) : Go (list (option Block) * error) :=
  foldl (fun acc tpr => acc ← acc; getConfigBlocks_iteration acc tpr)
    (mret ([], None)) tprs.

(** A response that does not yield a first data entry: its payload
    does not unmarshal as a Block, or the Block has no data, or the
    data has no entry. *)
Inductive undecodable (tpr : TPR) : Prop :=
| not_a_block payload e :
    GetResponse (ProposalResponse tpr) = Some {| Response_Payload := payload |} ->
    proto_Unmarshal (A := Block) payload = Err e ->
    undecodable tpr
| no_data payload :
    GetResponse (ProposalResponse tpr) = Some {| Response_Payload := payload |} ->
    proto_Unmarshal (A := Block) payload = Ok {| Block_Data := None |} ->
    undecodable tpr
| no_entry payload :
    GetResponse (ProposalResponse tpr) = Some {| Response_Payload := payload |} ->
    proto_Unmarshal (A := Block) payload =
      Ok {| Block_Data := Some {| BlockData_Data := [] |} |} ->
    undecodable tpr.

(** The statements of QueryConfigBlock that follow the Match check:
    [block, _ := createCommonBlock(tprs[0])] and
    [return createConfigEnvelope(block.Data.Data[0])]. *)
Definition after_Match (tprs : list TPR) : Go (option ConfigEnvelope * error) :=
  tpr0 ← index tprs 0;
  '(block, _) ← createCommonBlock tpr0;
  block ← deref block;
  data ← deref (Block_Data block);
  data0 ← index (BlockData_Data data) 0;
  createConfigEnvelope data0.

Section Methods.
(** The receiver. *)
Variable c : Ledger.

(** QueryBlockByHash queries the ledger for Block by block hash; a
    nil [blockHash] is [None]. *)
Definition QueryBlockByHash (reqCtx : ReqCtx) (blockHash : option bytes)
    (targets : list Target) (verifier : option ResponseVerifier)
  : Go (option (list (option Block)) * error) :=
  match blockHash with
  | None => mret (None, errors.New "blockHash is required")
  | Some hash =>
      let cir := createBlockByHashInvokeRequest (chName c) hash in
      '(tprs, errs) ← queryChaincode reqCtx (chName c) cir targets verifier;
      '(responses, errors) ← getConfigBlocks tprs;
      let errs := multi.Append errs errors in
      mret (Some responses, errs)
  end.

(** QueryBlockByTxID returns a block which contains a transaction. *)
Definition QueryBlockByTxID (reqCtx : ReqCtx) (txID : string)
    (targets : list Target) (verifier : option ResponseVerifier)
  : Go (option (list (option Block)) * error) :=
  if String.eqb txID "" then
    mret (None, errors.New "txID is required")
  else
    let cir := createBlockByTxIDInvokeRequest (chName c) txID in
    '(tprs, errs) ← queryChaincode reqCtx (chName c) cir targets verifier;
    '(responses, errors) ← getConfigBlocks tprs;
    let errs := multi.Append errs errors in
    mret (Some responses, errs).

(** One iteration of the loop of QueryTransaction. *)
Definition QueryTransaction_iteration
    (acc : list (option ProcessedTransaction) * error) (tpr : TPR)
  : Go (list (option ProcessedTransaction) * error) :=
  let '(responses, errs) := acc in
  '(r, err) ← createProcessedTransaction tpr;
  match err with
  | Some _ =>
      mret (responses,
            multi.Append errs
              (errors.WithMessage err ("From target: " ++ Endorser tpr)%string))
  | None => mret (responses ++ [r], errs)
  end.

(** QueryTransaction queries the ledger for Transaction by number. *)
Definition QueryTransaction (reqCtx : ReqCtx) (transactionID : string)
    (targets : list Target) (verifier : option ResponseVerifier)
  : Go (option (list (option ProcessedTransaction)) * error) :=
  let cir := createTransactionByIDInvokeRequest (chName c) transactionID in
  '(tprs, errs) ← queryChaincode reqCtx (chName c) cir targets verifier;
  '(responses, errs) ←
    foldl (fun acc tpr => acc ← acc; QueryTransaction_iteration acc tpr)
      (mret ([], errs)) tprs;
  mret (Some responses, errs).

(** QueryConfigBlock returns the current configuration block for the
    specified channel. *)
Definition QueryConfigBlock (reqCtx : ReqCtx) (targets : list Target)
    (verifier : option ResponseVerifier)
  : Go (option ConfigEnvelope * error) :=
  if (length targets =? 0)%nat then
    mret (None, errors.New "target(s) required")
  else
    let cir := createConfigBlockInvokeRequest (chName c) in
    '(tprs, err) ← queryChaincode reqCtx (chName c) cir targets verifier;
    if not_nil err && (length tprs =? 0)%nat then
      mret (None, errors.WithMessage err "queryChaincode failed")
    else
      matchErr ← call_Match verifier tprs;
      if not_nil matchErr then
        mret (None, matchErr)
      else
        tpr0 ← index tprs 0;
        '(block, _) ← createCommonBlock tpr0;
        block ← deref block;
        data ← deref (Block_Data block);
        data0 ← index (BlockData_Data data) 0;
        createConfigEnvelope data0.
End Methods.
End Ledger.

(** The type of the decoded artifact is given with the call. *)
Arguments createConfigEnvelope {Target} ConfigEnvelope {_ _ _ _} data.
Arguments after_Match {Target} ConfigEnvelope {_ _ _ _ _} tprs.
Arguments QueryConfigBlock {Target ReqCtx ClientCtx TxnHeader Proposal}
  ConfigEnvelope {_ _ _ _ _ _ _} c reqCtx targets verifier.
Arguments createProcessedTransaction {Target} ProcessedTransaction {_} tpr.
Arguments QueryTransaction_iteration {Target} ProcessedTransaction {_} acc tpr.
Arguments QueryTransaction {Target ReqCtx ClientCtx TxnHeader Proposal}
  ProcessedTransaction {_ _ _} c reqCtx transactionID targets verifier.

(** ** The protobuf wire format, for the messages of the configuration block

    A reference decoder used to run the client on concrete payloads. It
    reads the fields the client uses (by number and wire type, as in
    common.proto and transaction.proto) and skips the others. A field
    given more than once keeps its last occurrence; a repeated field
    keeps all of them, in order. *)
Module wire.

Inductive wire_value : Type :=
| Varint (n : N)
| Fixed64 (b : bytes)
| LengthDelimited (b : bytes)
| Fixed32 (b : bytes).

(** A base-128 varint, least significant group first, of at most
    [S fuel] bytes. *)
Fixpoint read_varint (fuel : nat) (bs : bytes) : option (N * bytes) :=
  match bs with
  | [] => None
  | b :: rest =>
      let v := Byte.to_N b in
      if (v <? 128)%N then Some (v, rest)
      else
        match fuel with
        | 0 => None
        | S fuel =>
            match read_varint fuel rest with
            | Some (hi, rest) => Some ((v - 128) + 128 * hi, rest)%N
            | None => None
            end
        end
  end.

Definition read_fixed (n : nat) (bs : bytes) : option (bytes * bytes) :=
  if (n <=? length bs)%nat then Some (take n bs, drop n bs) else None.

(** One field: the key [(number << 3) | wire type], then the value. *)
Definition read_field (bs : bytes) : option ((N * wire_value) * bytes) :=
  match read_varint 9 bs with
  | None => None
  | Some (key, rest) =>
      let number := N.shiftr key 3 in
      if (number =? 0)%N then None
      else
        match N.land key 7 with
        | 0%N =>
            match read_varint 9 rest with
            | Some (n, rest) => Some ((number, Varint n), rest)
            | None => None
            end
        | 1%N =>
            match read_fixed 8 rest with
            | Some (b, rest) => Some ((number, Fixed64 b), rest)
            | None => None
            end
        | 2%N =>
            match read_varint 9 rest with
            | Some (len, rest) =>
                match read_fixed (N.to_nat len) rest with
                | Some (b, rest) => Some ((number, LengthDelimited b), rest)
                | None => None
                end
            | None => None
            end
        | 5%N =>
            match read_fixed 4 rest with
            | Some (b, rest) => Some ((number, Fixed32 b), rest)
            | None => None
            end
        | _ => None
        end
  end.

Fixpoint read_fields (fuel : nat) (bs : bytes) : option (list (N * wire_value)) :=
  match bs with
  | [] => Some []
  | _ :: _ =>
      match fuel with
      | 0 => None
      | S fuel =>
          match read_field bs with
          | Some (f, rest) =>
              match read_fields fuel rest with
              | Some fs => Some (f :: fs)
              | None => None
              end
          | None => None
          end
      end
  end.

Definition read_message (bs : bytes) : option (list (N * wire_value)) :=
  read_fields (length bs) bs.

(** The occurrences of a length-delimited field; [None] when the field
    comes with another wire type. *)
Fixpoint bytes_fields (number : N) (fs : list (N * wire_value)) : option (list bytes) :=
  match fs with
  | [] => Some []
  | (n, v) :: fs =>
      if (n =? number)%N then
        match v, bytes_fields number fs with
        | LengthDelimited b, Some bs => Some (b :: bs)
        | _, _ => None
        end
      else bytes_fields number fs
  end.

Fixpoint varint_fields (number : N) (fs : list (N * wire_value)) : option (list N) :=
  match fs with
  | [] => Some []
  | (n, v) :: fs =>
      if (n =? number)%N then
        match v, varint_fields number fs with
        | Varint x, Some xs => Some (x :: xs)
        | _, _ => None
        end
      else varint_fields number fs
  end.

(** A varint read as int32. *)
Definition int32_of (n : N) : Z :=
  let z := (Z.of_N n mod 2 ^ 32)%Z in
  if (z <? 2 ^ 31)%Z then z else (z - 2 ^ 32)%Z.

Definition malformed {A} : result A := Err (errors_New "proto: cannot parse message").

Definition decode {A} (read : list (N * wire_value) -> option A) (bs : bytes) : result A :=
  match read_message bs with
  | Some fs =>
      match read fs with
      | Some a => Ok a
      | None => malformed
      end
  | None => malformed
  end.

(** BlockData: repeated bytes data = 1. *)
Definition read_BlockData (fs : list (N * wire_value)) : option BlockData :=
  ds ← bytes_fields 1 fs; Some {| BlockData_Data := ds |}.

(** Block: BlockHeader header = 1; BlockData data = 2;
    BlockMetadata metadata = 3. *)
Definition read_Block (fs : list (N * wire_value)) : option Block :=
  _ ← bytes_fields 1 fs;
  _ ← bytes_fields 3 fs;
  ds ← bytes_fields 2 fs;
  match last ds with
  | None => Some {| Block_Data := None |}
  | Some b =>
      fs ← read_message b;
      d ← read_BlockData fs;
      Some {| Block_Data := Some d |}
  end.

(** Envelope: bytes payload = 1; bytes signature = 2. *)
Definition read_Envelope (fs : list (N * wire_value)) : option Envelope :=
  ps ← bytes_fields 1 fs;
  ss ← bytes_fields 2 fs;
  Some {| Envelope_Payload := default [] (last ps);
          Envelope_Signature := default [] (last ss) |}.

(** Header: bytes channel_header = 1; bytes signature_header = 2. *)
Definition read_Header (fs : list (N * wire_value)) : option Header :=
  cs ← bytes_fields 1 fs;
  ss ← bytes_fields 2 fs;
  Some {| Header_ChannelHeader := default [] (last cs);
          Header_SignatureHeader := default [] (last ss) |}.

(** Payload: Header header = 1; bytes data = 2. *)
Definition read_Payload (fs : list (N * wire_value)) : option Payload :=
  hs ← bytes_fields 1 fs;
  ds ← bytes_fields 2 fs;
  match last hs with
  | None => Some {| Payload_Header := None; Payload_Data := default [] (last ds) |}
  | Some b =>
      fs ← read_message b;
      h ← read_Header fs;
      Some {| Payload_Header := Some h; Payload_Data := default [] (last ds) |}
  end.

(** ChannelHeader: int32 type = 1; string channel_id = 4. *)
Definition read_ChannelHeader (fs : list (N * wire_value)) : option ChannelHeader :=
  ts ← varint_fields 1 fs;
  cs ← bytes_fields 4 fs;
  Some {| ChannelHeader_Type := int32_of (default 0%N (last ts));
          ChannelHeader_ChannelId := string_of_list_byte (default [] (last cs)) |}.

(** ConfigEnvelope: Config config = 1; Envelope last_update = 2, both
    kept as their bytes. *)
Record ConfigEnvelope := {
  ConfigEnvelope_Config : option bytes;
  ConfigEnvelope_LastUpdate : option bytes
}.

Definition read_ConfigEnvelope (fs : list (N * wire_value)) : option ConfigEnvelope :=
  cs ← bytes_fields 1 fs;
  us ← bytes_fields 2 fs;
  Some {| ConfigEnvelope_Config := last cs; ConfigEnvelope_LastUpdate := last us |}.

(** ProcessedTransaction: Envelope transactionEnvelope = 1;
    int32 validationCode = 2. *)
Record ProcessedTransaction := {
  ProcessedTransaction_TransactionEnvelope : option bytes;
  ProcessedTransaction_ValidationCode : Z
}.

Definition read_ProcessedTransaction (fs : list (N * wire_value))
  : option ProcessedTransaction :=
  es ← bytes_fields 1 fs;
  vs ← varint_fields 2 fs;
  Some {| ProcessedTransaction_TransactionEnvelope := last es;
          ProcessedTransaction_ValidationCode := int32_of (default 0%N (last vs)) |}.

#[export] Instance Block_msg : ProtoMessage Block := decode read_Block.
#[export] Instance Envelope_msg : ProtoMessage Envelope := decode read_Envelope.
#[export] Instance Payload_msg : ProtoMessage Payload := decode read_Payload.
#[export] Instance ChannelHeader_msg : ProtoMessage ChannelHeader :=
  decode read_ChannelHeader.
#[export] Instance ConfigEnvelope_msg : ProtoMessage ConfigEnvelope :=
  decode read_ConfigEnvelope.
#[export] Instance ProcessedTransaction_msg : ProtoMessage ProcessedTransaction :=
  decode read_ProcessedTransaction.

(** The encoder of the two shapes the examples need: a length-delimited
    field and a varint field, for short contents. *)
Definition byte_of_nat (n : nat) : Byte.byte := default Byte.x00 (Byte.of_nat n).

Definition put_bytes (number : nat) (b : bytes) : bytes :=
  byte_of_nat (number * 8 + 2) :: byte_of_nat (length b) :: b.

Definition put_varint (number : nat) (n : nat) : bytes :=
  [byte_of_nat (number * 8); byte_of_nat n].

End wire.

(** ** Verifiers *)

Module verifier.

(** A verifier that skips Verify and accepts any set in Match. *)
Definition accept_all : ResponseVerifier :=
  {| Verify := fun _ => None; Match := fun _ => None |}.

(** Modelled from the spec: the quorum verifier configured with
    minResponses is not among the sources. Verify is skipped; Match fails
    with a descriptive error when the filtered set is empty or holds
    fewer than minResponses responses, and when the payloads of the
    responses are not byte-equal to the payload of the first one. *)
Definition quorum_error (minResponses : Z) (got : nat) : error :=
  errors.Errorf "required minimum %d responses got %d"
    [ArgInt minResponses; ArgInt (Z.of_nat got)].

Definition same_payload (a b : TransactionProposalResponse) : bool :=
  bool_decide (ProposalResponse a = ProposalResponse b).

Definition min_responses (minResponses : Z) : ResponseVerifier :=
  {| Verify := fun _ => None;
     Match := fun responses =>
       match responses with
       | [] => quorum_error minResponses 0
       | first :: others =>
           if (Z.of_nat (length responses) <? minResponses)%Z then
             quorum_error minResponses (length responses)
           else if forallb (same_payload first) others then None
           else errors.New "responses do not agree"
       end |}.

(** Modelled from the spec: what every quorum verifier configured with
    [minResponses] guarantees of Match, whatever its agreement rule: a
    set of fewer than [minResponses] responses is refused. *)
Definition enforces_minimum (v : ResponseVerifier) (minResponses : nat) : Prop :=
  forall responses, length responses < minResponses -> Match v responses <> None.

End verifier.

(** ** The target selector *)

Module chconfig.

(** Modelled from the spec: randomMaxTargets is called by the test
    TestRandomMaxTargetsSelections but its body is not among the sources.
    Given the candidate list and the bound [max] it returns
    [min max N] targets chosen by random sampling without repetition;
    [rand i] is the i-th number drawn from the random source. *)
Fixpoint sample {A} (rand : nat -> nat) (draw : nat) (candidates : list A) (k : nat)
  : list A :=
  match k with
  | 0 => []
  | S k =>
      let j := rand draw mod length candidates in
      match candidates !! j with
      | Some t => t :: sample rand (S draw) (delete j candidates) k
      | None => []
      end
  end.

Definition randomMaxTargets {A} (rand : nat -> nat) (targets : list A) (max : nat)
  : list A :=
  sample rand 0 targets (min max (length targets)).

End chconfig.

(** ** A transport of canned responses

    Every target answers with its own status and payload, in the order
    of the target list, as the mock peers of the tests do. The request
    context is [true] when it carries a client context. *)
Module mock.

Record Peer := { Name : string; PeerStatus : Z; PeerPayload : bytes }.

Definition respond (p : Peer) : TransactionProposalResponse :=
  {| Endorser := Name p;
     Status := PeerStatus p;
     ProposalResponse :=
       Some {| ProposalResponse_Response :=
                 Some {| Response_Payload := PeerPayload p |} |} |}.

#[export] Instance transport : Transport Peer bool unit string ChaincodeInvokeRequest :=
  {| RequestClientContext := fun reqCtx : bool => if reqCtx then Some tt else None;
     txn_NewHeader := fun (_ : unit) (channelID : string) => Ok channelID;
     txn_CreateChaincodeInvokeProposal :=
       fun (_ : string) (request : ChaincodeInvokeRequest) => Ok request;
     txn_SendProposal := fun _ _ (targets : list Peer) => (map respond targets, None) |}.

Definition bytes_of (s : string) : bytes := list_byte_of_string s.

#[export] Instance builders : RequestBuilders :=
  {| createConfigBlockInvokeRequest := fun channelID =>
       {| ChaincodeID := "cscc"; Fcn := "GetConfigBlock"; Args := [bytes_of channelID] |};
     createBlockByHashInvokeRequest := fun channelID hash =>
       {| ChaincodeID := "qscc"; Fcn := "GetBlockByHash";
          Args := [bytes_of channelID; hash] |};
     createBlockByTxIDInvokeRequest := fun channelID txID =>
       {| ChaincodeID := "qscc"; Fcn := "GetBlockByTxID";
          Args := [bytes_of channelID; bytes_of txID] |};
     createTransactionByIDInvokeRequest := fun channelID txID =>
       {| ChaincodeID := "qscc"; Fcn := "GetTransactionByID";
          Args := [bytes_of channelID; bytes_of txID] |} |}.

Definition testChannel : Ledger := {| chName := "testChannel" |}.

(** The nesting of a configuration block, outside in: a Block with one
    data entry, the Envelope in it, the Payload of the envelope, the
    Header of the payload, and the bytes of the channel header. *)
Definition block_with (envelope : bytes) : bytes :=
  wire.put_bytes 2 (wire.put_bytes 1 envelope).

Definition envelope_with (payload : bytes) : bytes := wire.put_bytes 1 payload.

Definition payload_with (channelHeader : bytes) : bytes :=
  wire.put_bytes 1 (wire.put_bytes 1 channelHeader).

Definition channel_header (type : nat) : bytes := wire.put_varint 1 type.

Definition block_of (type : nat) : bytes :=
  block_with (envelope_with (payload_with (channel_header type))).

(** A block of type CONFIG with an empty ConfigEnvelope. *)
Definition config_block : bytes := block_of 1.

(** Bytes that are no protobuf message: a key cut short. *)
Definition garbage : bytes := [Byte.xff].

Definition peer (name : string) (status : Z) (payload : bytes) : Peer :=
  {| Name := name; PeerStatus := status; PeerPayload := payload |}.

End mock.


(** ** The other queries of the ledger client *)

(** fab.BlockchainInfoResponse, with its pointer to the decoded
    common.BlockchainInfo. *)
Record BlockchainInfoResponse (BlockchainInfo : Type) := {
  BCIR_Endorser : string;
  BCIR_Status : Z;
  BCIR_BCI : option BlockchainInfo
}.
Arguments BCIR_Endorser {BlockchainInfo} _.
Arguments BCIR_Status {BlockchainInfo} _.
Arguments BCIR_BCI {BlockchainInfo} _.

(** The request builders of the package that the queries below use;
    the block number is a uint64. *)
Class ReadRequestBuilders := {
  createChannelInfoInvokeRequest : string -> ChaincodeInvokeRequest;
  createBlockByNumberInvokeRequest : string -> N -> ChaincodeInvokeRequest
}.

(** [tpr.ProposalResponse.GetResponse().Payload] where it does not
    panic. *)
Definition payload_of (tpr : TransactionProposalResponse) : option bytes :=
  r ← GetResponse (ProposalResponse tpr); Some (Response_Payload r).

(** The error a query records for a response whose payload does not
    unmarshal: the error of the create function, with the target. *)
Definition decode_failure (tpr : TransactionProposalResponse) (e : error_val) : error :=
  errors.WithMessage
    (errors.Wrap (Some e) "unmarshal of transaction proposal response failed")
    ("From target: " ++ Endorser tpr)%string.

Section LedgerReads.
Context {Target ReqCtx ClientCtx TxnHeader Proposal : Type}.
(** common.BlockchainInfo and pb.ChaincodeQueryResponse. *)
Context {BlockchainInfo ChaincodeQueryResponse : Type}.
Context {transport : Transport Target ReqCtx ClientCtx TxnHeader Proposal}
        {builders : RequestBuilders}
        {read_builders : ReadRequestBuilders}.
Context {Block_msg : ProtoMessage Block}
        {BlockchainInfo_msg : ProtoMessage BlockchainInfo}
        {ChaincodeQueryResponse_msg : ProtoMessage ChaincodeQueryResponse}.

Local Abbreviation TPR := TransactionProposalResponse.
Local Abbreviation Go := (M (Event Target)).

Definition createBlockchainInfo (tpr : TPR) : Go (option BlockchainInfo * error) :=
  payload ← response_payload tpr;
  match proto_Unmarshal (A := BlockchainInfo) payload with
  | Err err =>
      mret (None, errors.Wrap (Some err)
        "unmarshal of transaction proposal response failed")
  | Ok response => mret (Some response, None)
  end.

Definition createChaincodeQueryResponse (tpr : TPR)
  : Go (option ChaincodeQueryResponse * error) :=
  payload ← response_payload tpr;
  match proto_Unmarshal (A := ChaincodeQueryResponse) payload with
  | Err err =>
      mret (None, errors.Wrap (Some err)
        "unmarshal of transaction proposal response failed")
  | Ok response => mret (Some response, None)
  end.

(** One iteration of the loop of collectProposalResponses. *)
Definition collectProposalResponses_iteration (responses : list bytes) (tpr : TPR)
  : Go (list bytes) :=
  payload ← response_payload tpr;
  mret (responses ++ [payload]).

Definition collectProposalResponses (tprs : list TPR) : Go (list bytes) :=
  foldl (fun acc tpr => acc ← acc; collectProposalResponses_iteration acc tpr)
    (mret []) tprs.

Section Methods.
Variable c : Ledger.

(** One iteration of the loop of QueryInfo. *)
Definition QueryInfo_iteration
    (acc : list (BlockchainInfoResponse BlockchainInfo) * error) (tpr : TPR)
  : Go (list (BlockchainInfoResponse BlockchainInfo) * error) :=
  let '(responses, errs) := acc in
  '(r, err) ← createBlockchainInfo tpr;
  match err with
  | Some _ =>
      mret (responses,
            multi.Append errs
              (errors.WithMessage err ("From target: " ++ Endorser tpr)%string))
  | None =>
      mret (responses ++
              [{| BCIR_Endorser := Endorser tpr;
                  BCIR_Status := Status tpr;
                  BCIR_BCI := r |}],
            errs)
  end.

(** QueryInfo queries for various useful information on the state of
    the channel (height, known peers). *)
Definition QueryInfo (reqCtx : ReqCtx) (targets : list Target)
    (verifier : option ResponseVerifier)
  : Go (list (BlockchainInfoResponse BlockchainInfo) * error) :=
  let cir := createChannelInfoInvokeRequest (chName c) in
  '(tprs, errs) ← queryChaincode reqCtx (chName c) cir targets verifier;
  foldl (fun acc tpr => acc ← acc; QueryInfo_iteration acc tpr)
    (mret ([], errs)) tprs.

(** QueryBlock queries the ledger for Block by block number. *)
Definition QueryBlock (reqCtx : ReqCtx) (blockNumber : N)
    (targets : list Target) (verifier : option ResponseVerifier)
  : Go (list (option Block) * error) :=
  let cir := createBlockByNumberInvokeRequest (chName c) blockNumber in
  '(tprs, errs) ← queryChaincode reqCtx (chName c) cir targets verifier;
  '(responses, errors) ← getConfigBlocks tprs;
  let errs := multi.Append errs errors in
  mret (responses, errs).

(** One iteration of the loop of QueryInstantiatedChaincodes. *)
Definition QueryInstantiatedChaincodes_iteration
    (acc : list (option ChaincodeQueryResponse) * error) (tpr : TPR)
  : Go (list (option ChaincodeQueryResponse) * error) :=
  let '(responses, errs) := acc in
  '(r, err) ← createChaincodeQueryResponse tpr;
  match err with
  | Some _ =>
      mret (responses,
            multi.Append errs
              (errors.WithMessage err ("From target: " ++ Endorser tpr)%string))
  | None => mret (responses ++ [r], errs)
  end.

(** QueryInstantiatedChaincodes queries the instantiated chaincodes on
    this channel. *)
Definition QueryInstantiatedChaincodes (reqCtx : ReqCtx) (targets : list Target)
    (verifier : option ResponseVerifier)
  : Go (list (option ChaincodeQueryResponse) * error) :=
  let cir := createChaincodeInvokeRequest in
  '(tprs, errs) ← queryChaincode reqCtx (chName c) cir targets verifier;
  foldl (fun acc tpr => acc ← acc; QueryInstantiatedChaincodes_iteration acc tpr)
    (mret ([], errs)) tprs.
End Methods.
End LedgerReads.

Arguments createBlockchainInfo {Target} BlockchainInfo {_} tpr.
Arguments createChaincodeQueryResponse {Target} ChaincodeQueryResponse {_} tpr.
Arguments QueryInfo_iteration {Target} BlockchainInfo {_} acc tpr.
Arguments QueryInfo {Target ReqCtx ClientCtx TxnHeader Proposal}
  BlockchainInfo {_ _ _} c reqCtx targets verifier.
Arguments QueryInstantiatedChaincodes_iteration {Target} ChaincodeQueryResponse {_} acc tpr.
Arguments QueryInstantiatedChaincodes {Target ReqCtx ClientCtx TxnHeader Proposal}
  ChaincodeQueryResponse {_ _} c reqCtx targets verifier.


(** What a query makes of one response: the message its payload decodes
    to, or the error recorded for it; both are absent for a response
    that carries no payload. *)
Definition has_payload (tpr : TransactionProposalResponse) : bool :=
  match payload_of tpr with Some _ => true | None => false end.

Definition decoded_with {A} (unmarshal : bytes -> result A)
    (tpr : TransactionProposalResponse) : option A :=
  match payload_of tpr with
  | Some payload =>
      match unmarshal payload with
      | Ok a => Some a
      | Err _ => None
      end
  | None => None
  end.

Definition failure_with {A} (unmarshal : bytes -> result A)
    (tpr : TransactionProposalResponse) : option error_val :=
  match payload_of tpr with
  | Some payload =>
      match unmarshal payload with
      | Ok _ => None
      | Err e =>
          Some (errors_WithMessage
                  (errors_Wrap e "unmarshal of transaction proposal response failed")
                  ("From target: " ++ Endorser tpr)%string)
      end
  | None => None
  end.

(** The aggregated error after the failures of a batch were appended to
    [errs], one by one. *)
Definition record_failures {A} (unmarshal : bytes -> result A)
    (errs : error) (tprs : list TransactionProposalResponse) : error :=
  foldl (fun errs tpr =>
           match failure_with unmarshal tpr with
           | Some e => multi.Append errs (Some e)
           | None => errs
           end) errs tprs.

(** The first data entry of the block in the first response, when there
    is one. *)
Definition first_data_entry `{ProtoMessage Block}
    (tprs : list TransactionProposalResponse) : option bytes :=
  tpr0 ← tprs !! 0;
  block ← decoded_with (proto_Unmarshal (A := Block)) tpr0;
  data ← Block_Data block;
  BlockData_Data data !! 0.

(** ** More canned collaborators *)
Module mock_reads.

(** A transport on which no target answers and none fails. *)
Definition silent : Transport mock.Peer bool unit string ChaincodeInvokeRequest :=
  {| RequestClientContext := fun reqCtx : bool => if reqCtx then Some tt else None;
     txn_NewHeader := fun (_ : unit) (channelID : string) => Ok channelID;
     txn_CreateChaincodeInvokeProposal :=
       fun (_ : string) (request : ChaincodeInvokeRequest) => Ok request;
     txn_SendProposal := fun _ _ (_ : list mock.Peer) => ([], None) |}.

(** A response without the embedded proposal response. *)
Definition bare (name : string) : TransactionProposalResponse :=
  {| Endorser := name; Status := 200; ProposalResponse := None |}.

(** A transport whose targets answer with bare responses. *)
Definition bare_transport
  : Transport mock.Peer bool unit string ChaincodeInvokeRequest :=
  {| RequestClientContext := fun reqCtx : bool => if reqCtx then Some tt else None;
     txn_NewHeader := fun (_ : unit) (channelID : string) => Ok channelID;
     txn_CreateChaincodeInvokeProposal :=
       fun (_ : string) (request : ChaincodeInvokeRequest) => Ok request;
     txn_SendProposal := fun _ _ (targets : list mock.Peer) =>
       (map (fun p => bare (mock.Name p)) targets, None) |}.

#[export] Instance read_builders : ReadRequestBuilders :=
  {| createChannelInfoInvokeRequest := fun channelID =>
       {| ChaincodeID := "qscc"; Fcn := "GetChainInfo";
          Args := [mock.bytes_of channelID] |};
     createBlockByNumberInvokeRequest := fun channelID blockNumber =>
       {| ChaincodeID := "qscc"; Fcn := "GetBlockByNumber";
          Args := [mock.bytes_of channelID; mock.bytes_of (pretty blockNumber)] |} |}.

(** BlockchainInfo: uint64 height = 1; bytes currentBlockHash = 2;
    bytes previousBlockHash = 3. *)
Record BlockchainInfo := {
  BlockchainInfo_Height : N;
  BlockchainInfo_CurrentBlockHash : bytes;
  BlockchainInfo_PreviousBlockHash : bytes
}.

Definition read_BlockchainInfo (fs : list (N * wire.wire_value))
  : option BlockchainInfo :=
  hs ← wire.varint_fields 1 fs;
  cs ← wire.bytes_fields 2 fs;
  ps ← wire.bytes_fields 3 fs;
  Some {| BlockchainInfo_Height := default 0%N (last hs);
          BlockchainInfo_CurrentBlockHash := default [] (last cs);
          BlockchainInfo_PreviousBlockHash := default [] (last ps) |}.

#[export] Instance BlockchainInfo_msg : ProtoMessage BlockchainInfo :=
  wire.decode read_BlockchainInfo.

End mock_reads.


(** * Properties *)

(** ** The monad *)

(** Runs the operations of the monad down to pairs. *)
Ltac run_go :=
  repeat progress
    (unfold index, deref, throw, emit, mret, mbind, M_ret, M_bind, value, trace in *;
     simpl in *).

Section MonadFacts.
Context {Event A B : Type}.

Lemma bind_run (t : list Event) (o : outcome A) (k : A -> M Event B) :
  (t, o) ≫= k =
    match o with
    | Returns a => (t ++ trace (k a), value (k a))
    | Panics p => (t, Panics p)
    end.
Proof.
  destruct o as [a|p]; [|reflexivity].
  unfold mbind, M_bind. destruct (k a). reflexivity.
Qed.

Lemma bind_silent (m : M Event A) (k : A -> M Event B) :
  trace m = [] -> (forall a, trace (k a) = []) -> trace (m ≫= k) = [].
Proof.
  destruct m as [t o]. intros Ht Hk. rewrite bind_run.
  simpl in Ht. subst t. destruct o; [|reflexivity]. simpl. apply Hk.
Qed.
End MonadFacts.

(** ** The aggregated error *)

Lemma entries_Append_Errorf errs format args :
  multi.entries (multi.Append errs (errors.Errorf format args)) =
  multi.entries errs ++ [errors_Errorf format args].
Proof.
  destruct errs as [e|]; [|reflexivity].
  destruct e; reflexivity.
Qed.

(** ** The response filter *)

Section Filter.
Variable verifier : option ResponseVerifier.
Variable responses : list TransactionProposalResponse.
Variable errs : error.

Local Abbreviation kept := (filter (retained verifier)).
Local Abbreviation after := (after verifier responses errs).

Lemma rejection_None response :
  rejection verifier response = None <-> retained verifier response = true.
Proof.
  unfold rejection, retained.
  destruct (Status response =? http_StatusOK)%Z; simpl; [|split; discriminate].
  destruct verifier as [v|]; [|tauto].
  destruct (Verify v response); simpl; split; congruence.
Qed.

Lemma rejection_names_target response e :
  rejection verifier response = Some e ->
  exists format rest, e = errors_Errorf format (ArgString (Endorser response) :: rest).
Proof.
  unfold rejection.
  destruct (Status response =? http_StatusOK)%Z.
  - destruct verifier as [v|]; [|discriminate].
    destruct (Verify v response); [|discriminate].
    intros [= <-]. eauto.
  - intros [= <-]. eauto.
Qed.

Lemma filter_iteration_read st i x :
  store st !! i = Some x ->
  filter_iteration verifier st i =
    match rejection verifier x with
    | Some e => append_error st (Some e)
    | None => append_filtered st x
    end.
Proof.
  intros Hread. unfold filter_iteration, rejection. rewrite Hread.
  destruct (Status x =? http_StatusOK)%Z; [|reflexivity].
  destruct verifier as [v|]; [|reflexivity].
  destruct (Verify v x); reflexivity.
Qed.

Lemma after_S i : after (S i) = filter_iteration verifier (after i) i.
Proof. unfold after. rewrite seq_S, foldl_app. reflexivity. Qed.

Lemma kept_take_le i : length (kept (take i responses)) <= i.
Proof.
  etransitivity; [apply length_filter|]. rewrite length_take. lia.
Qed.

(** The loop invariant: the store holds the responses kept so far,
    then the input from that position on; the errors are those of the
    responses rejected so far, after the errors passed in. *)
Lemma after_invariant i :
  i <= length responses ->
  store (after i) =
    kept (take i responses) ++ drop (length (kept (take i responses))) responses /\
  filtered_len (after i) = length (kept (take i responses)) /\
  multi.entries (errs_acc (after i)) =
    multi.entries errs ++ omap (rejection verifier) (take i responses).
Proof.
  induction i as [|i IH]; intros Hi.
  - simpl. rewrite app_nil_r. auto.
  - destruct IH as (Hstore & Hlen & Herrs); [lia|].
    pose proof (kept_take_le i) as Hle.
    destruct (lookup_lt_is_Some_2 responses i) as [x Hx]; [lia|].
    set (n := length (kept (take i responses))) in *.
    assert (Hread : store (after i) !! i = Some x).
    { rewrite Hstore, lookup_app_r by (fold n; lia).
      fold n. rewrite lookup_drop. replace (n + (i - n)) with i by lia. done. }
    rewrite after_S, (filter_iteration_read _ _ _ Hread).
    rewrite (take_S_r _ _ _ Hx), filter_app, omap_app. simpl.
    destruct (rejection verifier x) as [e|] eqn:Hrej.
    + assert (Hno : ~ retained verifier x).
      { intros Hyes. apply Is_true_true, rejection_None in Hyes. congruence. }
      rewrite filter_cons_False, filter_nil, app_nil_r by done.
      destruct (rejection_names_target _ _ Hrej) as (format & rest & ->).
      simpl. fold n.
      change (Some (errors_Errorf format (ArgString (Endorser x) :: rest)))
        with (errors.Errorf format (ArgString (Endorser x) :: rest)).
      rewrite entries_Append_Errorf, Herrs, <- app_assoc. auto.
    + assert (Hyes : retained verifier x).
      { apply Is_true_true, rejection_None. done. }
      rewrite filter_cons_True, filter_nil by done.
      rewrite length_app. simpl. fold n.
      replace (n + 1) with (S n) by lia.
      rewrite Hlen, Herrs, app_nil_r. split; [|auto].
      rewrite Hstore, insert_app_r_alt by (fold n; lia).
      fold n. replace (n - n) with 0 by lia.
      destruct (lookup_lt_is_Some_2 responses n) as [y Hy]; [lia|].
      rewrite (drop_S _ _ _ Hy). simpl. by rewrite <- app_assoc.
Qed.

Lemma filterResponses_loop_spec :
  let st := filterResponses_loop responses errs verifier in
  store st = kept responses ++ drop (length (kept responses)) responses /\
  filtered_len st = length (kept responses) /\
  multi.entries (errs_acc st) =
    multi.entries errs ++ omap (rejection verifier) responses.
Proof.
  pose proof (after_invariant (length responses) (le_n _)) as H.
  rewrite firstn_all in H. exact H.
Qed.
End Filter.

Section FilterFacts.
Variable verifier : option ResponseVerifier.

#[local] Arguments rejection : simpl never.
#[local] Arguments retained : simpl never.

Local Abbreviation kept := (filter (retained verifier)).

Lemma kept_all l : Forall (fun r => retained verifier r = true) l -> kept l = l.
Proof.
  induction 1 as [|x l Hx _ IH]; [done|].
  rewrite filter_cons_True by (by apply Is_true_true). by rewrite IH.
Qed.

Lemma kept_none l : Forall (fun r => retained verifier r = false) l -> kept l = [].
Proof.
  induction 1 as [|x l Hx _ IH]; [done|].
  rewrite filter_cons_False; [done|].
  intros Hyes. apply Is_true_true in Hyes. congruence.
Qed.

Lemma kept_retained l : Forall (fun r => retained verifier r = true) (kept l).
Proof.
  apply Forall_forall. intros r Hr.
  apply list_elem_of_filter in Hr as [Hr _]. by apply Is_true_true.
Qed.

Lemma kept_nil_inv l : kept l = [] -> Forall (fun r => retained verifier r = false) l.
Proof.
  induction l as [|x l IH]; [constructor|].
  rewrite filter_cons. destruct (decide (retained verifier x)) as [Hyes|Hno].
  - discriminate.
  - intros Hl. constructor; [|by apply IH].
    destruct (retained verifier x); [by destruct Hno|done].
Qed.

Lemma rejected_count l :
  length (omap (rejection verifier) l) + length (kept l) = length l.
Proof.
  induction l as [|x l IH]; [done|].
  pose proof (rejection_None verifier x) as Hx.
  rewrite filter_cons. simpl.
  destruct (rejection verifier x) as [e|].
  - destruct (decide (retained verifier x)) as [Hyes|Hno]; simpl.
    + apply Is_true_true, Hx in Hyes. discriminate.
    + f_equal. exact IH.
  - destruct (decide (retained verifier x)) as [Hyes|Hno]; simpl.
    + rewrite Nat.add_succ_r. f_equal. exact IH.
    + destruct Hno. apply Is_true_true, Hx. done.
Qed.

(** The store is left as it was exactly when no rejected response
    comes before a retained one. *)
Lemma kept_prefix_iff l :
  kept l ++ drop (length (kept l)) l = l <->
  exists l1 l2, l = l1 ++ l2 /\
    Forall (fun r => retained verifier r = true) l1 /\
    Forall (fun r => retained verifier r = false) l2.
Proof.
  split.
  - intros Heq. set (n := length (kept l)) in *.
    assert (Hk : kept l = take n l).
    { rewrite <- (take_drop n l) in Heq at 3.
      apply app_inv_tail in Heq. done. }
    exists (take n l), (drop n l). split; [by rewrite take_drop|].
    split; [rewrite <- Hk; apply kept_retained|].
    apply kept_nil_inv.
    assert (Hsplit : kept l = kept (take n l) ++ kept (drop n l)).
    { by rewrite <- filter_app, take_drop. }
    rewrite <- Hk, (kept_all (kept l)) in Hsplit by apply kept_retained.
    rewrite <- (app_nil_r (kept l)) in Hsplit at 1.
    apply app_inv_head in Hsplit. done.
  - intros (l1 & l2 & -> & H1 & H2).
    rewrite filter_app, (kept_all _ H1), (kept_none _ H2), app_nil_r.
    by rewrite drop_app_length.
Qed.
End FilterFacts.

(** C5. For every batch of raw responses and every verifier, configured
    or not, filterResponses retains exactly the responses of status 200
    that pass Verify (when there is a verifier), in their order; it adds
    to the aggregated error exactly one entry per rejected response and
    none for a retained one, in the order of the batch, each naming the
    endorser of the response it rejects; and it goes through the whole
    batch: the entries added and the responses retained add up to the
    length of the input. *)
Theorem filterResponses_retains_and_records
    (verifier : option ResponseVerifier)
    (responses : list TransactionProposalResponse) (errs : error) :
  let filtered := fst (filterResponses responses errs verifier) in
  let errs' := snd (filterResponses responses errs verifier) in
  filtered = filter (retained verifier) responses /\
  (forall r, retained verifier r = true <->
     (Status r = 200%Z /\ forall v, verifier = Some v -> Verify v r = None)) /\
  multi.entries errs' = multi.entries errs ++ omap (rejection verifier) responses /\
  (forall r, rejection verifier r = None <-> retained verifier r = true) /\
  (forall r e, rejection verifier r = Some e ->
     exists format rest,
       e = errors_Errorf format (ArgString (Endorser r) :: rest)) /\
  length (omap (rejection verifier) responses) + length filtered = length responses.
Proof.
  destruct (filterResponses_loop_spec verifier responses errs) as (Hstore & Hlen & Herrs).
  assert (Hf : fst (filterResponses responses errs verifier) =
               filter (retained verifier) responses).
  { unfold filterResponses, filteredResponses. simpl.
    rewrite Hstore, Hlen. apply take_app_length. }
  cbv zeta. rewrite Hf.
  split; [done|]. split; [|split; [exact Herrs|]].
  - intros r. unfold retained.
    rewrite andb_true_iff. change http_StatusOK with 200%Z. rewrite Z.eqb_eq. split.
    + intros [Hs Hv]. split; [done|]. intros v ->.
      destruct (Verify v r); [discriminate|done].
    + intros [Hs Hv]. split; [done|].
      destruct verifier as [v|]; [|done]. by rewrite (Hv v eq_refl).
  - split; [apply rejection_None|].
    split; [apply rejection_names_target|apply rejected_count].
Qed.

(** C10, as amended. The slice filterResponses returns is a prefix of the
    array of its input: after the call the first len(filtered) positions
    of the input hold the retained responses, the positions from
    len(filtered) on hold what they held before, and the length is
    unchanged. The input is left as it was exactly when no rejected
    response comes before a retained one. *)
Theorem filterResponses_overwrites_prefix
    (verifier : option ResponseVerifier)
    (responses : list TransactionProposalResponse) (errs : error) :
  let st := filterResponses_loop responses errs verifier in
  let filtered := fst (filterResponses responses errs verifier) in
  filtered = take (length filtered) (store st) /\
  filtered = filter (retained verifier) responses /\
  drop (length filtered) (store st) = drop (length filtered) responses /\
  length (store st) = length responses /\
  (store st = responses <->
   exists l1 l2, responses = l1 ++ l2 /\
     Forall (fun r => retained verifier r = true) l1 /\
     Forall (fun r => retained verifier r = false) l2).
Proof.
  destruct (filterResponses_loop_spec verifier responses errs) as (Hstore & Hlen & _).
  assert (Hf : fst (filterResponses responses errs verifier) =
               filter (retained verifier) responses).
  { unfold filterResponses, filteredResponses. simpl.
    rewrite Hstore, Hlen. apply take_app_length. }
  cbv zeta. rewrite Hf, Hstore.
  split; [by rewrite take_app_length|]. split; [done|].
  split; [by rewrite drop_app_length|]. split.
  - rewrite length_app, length_drop.
    pose proof (length_filter (retained verifier) responses). lia.
  - apply kept_prefix_iff.
Qed.


(** ** The queries *)

Section LedgerFacts.
Context {Target ReqCtx ClientCtx TxnHeader Proposal : Type}.
Context {ConfigEnvelope ProcessedTransaction : Type}.
Context {transport : Transport Target ReqCtx ClientCtx TxnHeader Proposal}
        {builders : RequestBuilders}.
Context {Block_msg : ProtoMessage Block}
        {Envelope_msg : ProtoMessage Envelope}
        {Payload_msg : ProtoMessage Payload}
        {ChannelHeader_msg : ProtoMessage ChannelHeader}
        {ConfigEnvelope_msg : ProtoMessage ConfigEnvelope}
        {ProcessedTransaction_msg : ProtoMessage ProcessedTransaction}.

Local Abbreviation TPR := TransactionProposalResponse.
Local Abbreviation Go := (M (Event Target)).
Local Abbreviation QueryConfigBlock := (QueryConfigBlock ConfigEnvelope).
Local Abbreviation after_Match := (after_Match (Target := Target) ConfigEnvelope).
Local Abbreviation createConfigEnvelope :=
  (createConfigEnvelope (Target := Target) ConfigEnvelope).

Implicit Types (c : Ledger) (reqCtx : ReqCtx) (targets : list Target).
Implicit Types (verifier : option ResponseVerifier) (v : ResponseVerifier).
Implicit Types (tprs : list TPR) (err : error).

(** The dispatch of a query never panics. *)
Lemma queryChaincode_returns reqCtx channelID request targets verifier :
  exists tprs err,
    value (queryChaincode reqCtx channelID request targets verifier) =
      Returns (tprs, err).
Proof.
  unfold queryChaincode.
  destruct (RequestClientContext reqCtx) as [ctx|]; [|simpl; eauto].
  destruct (txn_NewHeader ctx channelID) as [txh|e]; [|simpl; eauto].
  destruct (txn_CreateChaincodeInvokeProposal txh request) as [tp|e]; [|simpl; eauto].
  destruct (txn_SendProposal reqCtx tp targets) as [raw errs]. simpl. eauto.
Qed.


Lemma response_payload_silent (tpr : TPR) :
  trace (response_payload (Target := Target) tpr) = [].
Proof.
  unfold response_payload.
  destruct (GetResponse (ProposalResponse tpr)); reflexivity.
Qed.

(** The unwrap calls no collaborator. *)
Lemma createConfigEnvelope_silent data :
  trace (createConfigEnvelope data) = [].
Proof.
  unfold createConfigEnvelope.
  destruct (proto_Unmarshal data) as [envelope|]; [|reflexivity].
  destruct (proto_Unmarshal (Envelope_Payload envelope)) as [payload|]; [|reflexivity].
  destruct (Payload_Header payload) as [header|]; [|reflexivity]. simpl.
  destruct (proto_Unmarshal (Header_ChannelHeader header)) as [ch|]; [|reflexivity].
  destruct (negb _); [reflexivity|].
  destruct (proto_Unmarshal (Payload_Data payload)); reflexivity.
Qed.

Lemma createCommonBlock_silent (tpr : TPR) :
  trace (createCommonBlock (Target := Target) tpr) = [].
Proof.
  unfold createCommonBlock. apply bind_silent; [apply response_payload_silent|].
  intros payload. destruct (proto_Unmarshal payload); reflexivity.
Qed.

Lemma after_Match_silent tprs : trace (after_Match tprs) = [].
Proof.
  unfold after_Match.
  apply bind_silent; [unfold index; by destruct (tprs !! 0)|]. intros tpr0.
  apply bind_silent; [apply createCommonBlock_silent|]. intros [block ?].
  apply bind_silent; [by destruct block|]. intros b.
  apply bind_silent; [by destruct (Block_Data b)|]. intros d.
  apply bind_silent; [unfold index; by destruct (BlockData_Data d !! 0)|].
  apply createConfigEnvelope_silent.
Qed.

(** QueryConfigBlock, by cases on what the dispatch returned. *)
Lemma QueryConfigBlock_cases c reqCtx targets verifier tprs err :
  targets <> [] ->
  let q := queryChaincode reqCtx (chName c)
             (createConfigBlockInvokeRequest (chName c)) targets verifier in
  value q = Returns (tprs, err) ->
  QueryConfigBlock c reqCtx targets verifier =
    if not_nil err && (length tprs =? 0)%nat then
      (trace q, Returns (None, errors.WithMessage err "queryChaincode failed"))
    else
      match verifier with
      | None => (trace q, Panics nil_dereference)
      | Some v =>
          match Match v tprs with
          | Some e => (trace q ++ [EvMatch tprs], Returns (None, Some e))
          | None => (trace q ++ [EvMatch tprs], value (after_Match tprs))
          end
      end.
Proof.
  intros Htargets q Hq.
  destruct targets as [|t targets]; [done|].
  change (QueryConfigBlock c reqCtx (t :: targets) verifier) with
    (q ≫= (fun '(tprs, err) =>
       if not_nil err && (length tprs =? 0)%nat then
         mret (None, errors.WithMessage err "queryChaincode failed")
       else
         call_Match verifier tprs ≫= fun matchErr =>
           if not_nil matchErr then mret (None, matchErr)
           else after_Match tprs)).
  destruct q as [tq oq]. simpl in Hq. subst oq. rewrite bind_run.
  destruct (not_nil err && (length tprs =? 0)%nat).
  - simpl. by rewrite app_nil_r.
  - unfold call_Match. destruct verifier as [v|]; simpl; [|by rewrite app_nil_r].
    destruct (Match v tprs) as [e|]; simpl; [done|].
    pose proof (after_Match_silent tprs) as Hs.
    destruct (after_Match tprs) as [ta oa]. simpl in *. by subst ta.
Qed.
(** The unwrap returns an artifact with the nil error only. *)
Lemma createConfigEnvelope_artifact data cfg e :
  value (createConfigEnvelope data) = Returns (Some cfg, e) -> e = None.
Proof.
  unfold createConfigEnvelope.
  destruct (proto_Unmarshal data) as [envelope|]; [|simpl; intros; discriminate].
  destruct (proto_Unmarshal (Envelope_Payload envelope)) as [payload|]; [|simpl; intros; discriminate].
  destruct (Payload_Header payload) as [header|]; [|simpl; intros; discriminate]. simpl.
  destruct (proto_Unmarshal (Header_ChannelHeader header)) as [ch|]; [|simpl; intros; discriminate].
  destruct (negb _); [simpl; intros; discriminate|].
  destruct (proto_Unmarshal (Payload_Data payload)); [|simpl; intros; discriminate].
  by intros [= _ <-].
Qed.

Lemma after_Match_artifact tprs cfg e :
  value (after_Match tprs) = Returns (Some cfg, e) -> e = None.
Proof.
  pose proof (createConfigEnvelope_artifact) as Hunwrap.
  unfold after_Match, createCommonBlock, response_payload. run_go.
  destruct (tprs !! 0) as [tpr0|]; [|intros; discriminate].
  destruct (GetResponse (ProposalResponse tpr0)) as [r|]; [|intros; discriminate].
  destruct (proto_Unmarshal (Response_Payload r)) as [block|]; [|intros; discriminate].
  destruct (Block_Data block) as [d|]; [|intros; discriminate].
  destruct (BlockData_Data d !! 0) as [data0|]; [|intros; discriminate].
  specialize (Hunwrap data0 cfg e).
  destruct (createConfigEnvelope data0) as [t o]. exact Hunwrap.
Qed.

(** X1. The unwrap returns a ConfigEnvelope exactly along the chain
    Envelope, Payload of the envelope's payload, header of the payload,
    ChannelHeader of the header's bytes with type CONFIG, ConfigEnvelope
    of the payload's data; the artifact comes with the nil error. *)
Theorem createConfigEnvelope_success data cfg e :
  value (createConfigEnvelope data) = Returns (Some cfg, e) <->
  e = None /\
  exists envelope payload header channelHeader,
    proto_Unmarshal data = Ok envelope /\
    proto_Unmarshal (Envelope_Payload envelope) = Ok payload /\
    Payload_Header payload = Some header /\
    proto_Unmarshal (Header_ChannelHeader header) = Ok channelHeader /\
    ChannelHeader_Type channelHeader = HeaderType_CONFIG /\
    proto_Unmarshal (Payload_Data payload) = Ok cfg.
Proof.
  unfold createConfigEnvelope. split.
  - destruct (proto_Unmarshal data) as [envelope|] eqn:He;
      [|simpl; intros; discriminate].
    destruct (proto_Unmarshal (Envelope_Payload envelope)) as [payload|] eqn:Hp;
      [|simpl; intros; discriminate].
    destruct (Payload_Header payload) as [header|] eqn:Hh;
      [|simpl; intros; discriminate].
    simpl.
    destruct (proto_Unmarshal (Header_ChannelHeader header)) as [ch|] eqn:Hch;
      [|simpl; intros; discriminate].
    destruct (Z.eqb_spec (ChannelHeader_Type ch) HeaderType_CONFIG) as [Hty|];
      [|simpl; intros; discriminate]. simpl.
    destruct (proto_Unmarshal (Payload_Data payload)) as [cfg'|] eqn:Hcfg;
      [|simpl; intros; discriminate].
    intros [= <- <-]. split; [done|]. exists envelope, payload, header, ch.
    by rewrite Hh.
  - intros (-> & envelope & payload & header & ch & -> & -> & -> & Hch & Hty & Hcfg).
    simpl. rewrite Hch, Hty, Z.eqb_refl. simpl. by rewrite Hcfg.
Qed.

(** X2. When the envelope, the payload and the channel header decode
    and the type of the channel header is not CONFIG, the unwrap returns
    no artifact and the error "block must be of type 'CONFIG'". *)
Theorem createConfigEnvelope_not_CONFIG data envelope payload header channelHeader :
  proto_Unmarshal data = Ok envelope ->
  proto_Unmarshal (Envelope_Payload envelope) = Ok payload ->
  Payload_Header payload = Some header ->
  proto_Unmarshal (Header_ChannelHeader header) = Ok channelHeader ->
  ChannelHeader_Type channelHeader <> HeaderType_CONFIG ->
  createConfigEnvelope data =
    ([], Returns (None, Some (errors_New "block must be of type 'CONFIG'"))).
Proof.
  intros He Hp Hh Hch Hty. unfold createConfigEnvelope.
  rewrite He, Hp, Hh. simpl. rewrite Hch.
  by destruct (Z.eqb_spec (ChannelHeader_Type channelHeader) HeaderType_CONFIG).
Qed.

(** C3. With an empty target list QueryConfigBlock returns no
    artifact and the error "target(s) required", whatever the verifier,
    and calls no collaborator: no transaction header, no proposal
    created, no proposal sent, no Match. *)
Theorem QueryConfigBlock_no_targets c reqCtx verifier :
  value (QueryConfigBlock c reqCtx [] verifier) =
    Returns (None, Some (errors_New "target(s) required")) /\
  trace (QueryConfigBlock c reqCtx [] verifier) = [].
Proof. split; reflexivity. Qed.


(** C9. When the dispatch yields a non-empty filtered set,
    QueryConfigBlock goes on to Match and the extraction whatever the
    aggregated error of the dispatch is: its result is made of the
    filtered set alone. It returns at the queryChaincode check, with
    the dispatch error wrapped as "queryChaincode failed", exactly when
    that error is not nil and the filtered set is empty. An artifact
    always comes with the nil error. *)
Theorem QueryConfigBlock_discards_dispatch_error c reqCtx t targets verifier :
  let q := queryChaincode reqCtx (chName c)
             (createConfigBlockInvokeRequest (chName c)) (t :: targets) verifier in
  let run := QueryConfigBlock c reqCtx (t :: targets) verifier in
  exists tprs err,
    value q = Returns (tprs, err) /\
    (tprs <> [] ->
     run = match verifier with
           | None => (trace q, Panics nil_dereference)
           | Some v =>
               match Match v tprs with
               | Some e => (trace q ++ [EvMatch tprs], Returns (None, Some e))
               | None => (trace q ++ [EvMatch tprs], value (after_Match tprs))
               end
           end) /\
    (run = (trace q, Returns (None, errors.WithMessage err "queryChaincode failed"))
     <-> err <> None /\ tprs = []) /\
    (forall cfg e, value run = Returns (Some cfg, e) -> e = None).
Proof.
  intros q run.
  destruct (queryChaincode_returns reqCtx (chName c)
              (createConfigBlockInvokeRequest (chName c)) (t :: targets) verifier)
    as (tprs & err & Hq).
  exists tprs, err. split; [done|].
  pose proof (QueryConfigBlock_cases c reqCtx (t :: targets) verifier tprs err
                ltac:(done) Hq) as Hrun.
  fold q run in Hrun.
  assert (Hlonger : forall o o' : outcome (option ConfigEnvelope * error),
             (trace q ++ [EvMatch tprs], o) <> (trace q, o')).
  { intros o o' [= H _]. apply (f_equal length) in H.
    rewrite length_app in H. simpl in H. lia. }
  split; [|split].
  - intros Hne. rewrite Hrun.
    destruct tprs; [done|]. by rewrite andb_false_r.
  - rewrite Hrun. destruct err as [e0|], tprs as [|r rest]; simpl.
    + split; [done|]. done.
    + split; [|by intros [_ ?]]. intros H. exfalso.
      destruct verifier as [v|]; [|discriminate].
      destruct (Match v (r :: rest)); by apply Hlonger in H.
    + split; [|by intros [? _]]. intros H. exfalso.
      destruct verifier as [v|]; [|discriminate].
      destruct (Match v []); by apply Hlonger in H.
    + split; [|by intros [? _]]. intros H. exfalso.
      destruct verifier as [v|]; [|discriminate].
      destruct (Match v (r :: rest)); by apply Hlonger in H.
  - intros cfg e. rewrite Hrun.
    destruct (not_nil err && (length tprs =? 0)%nat); [discriminate|].
    destruct verifier as [v|]; [|discriminate].
    destruct (Match v tprs); [discriminate|]. simpl.
    apply after_Match_artifact.
Qed.
Lemma after_Match_undecodable (r : TPR) rest :
  undecodable r ->
  value (after_Match (r :: rest)) = Panics nil_dereference \/
  value (after_Match (r :: rest)) = Panics (index_out_of_range 0 0).
Proof.
  unfold after_Match, createCommonBlock, response_payload.
  intros [payload e Hr Hb|payload Hr Hb|payload Hr Hb];
    run_go; rewrite Hr; run_go; rewrite Hb; run_go; auto.
Qed.

(** C2, on the code. When Match accepts a filtered set whose first
    response is undecodable, QueryConfigBlock panics: the error of
    createCommonBlock is dropped and the nil block, its nil data or the
    missing first entry is read. *)
Theorem QueryConfigBlock_undecodable_representative c reqCtx t targets v r rest err :
  value (queryChaincode reqCtx (chName c)
           (createConfigBlockInvokeRequest (chName c)) (t :: targets) (Some v)) =
    Returns (r :: rest, err) ->
  Match v (r :: rest) = None ->
  undecodable r ->
  exists p, value (QueryConfigBlock c reqCtx (t :: targets) (Some v)) = Panics p.
Proof.
  intros Hq Hm Hr.
  rewrite (QueryConfigBlock_cases c reqCtx (t :: targets) (Some v) (r :: rest) err
             ltac:(done) Hq).
  rewrite andb_false_r, Hm. simpl.
  destruct (after_Match_undecodable r rest Hr) as [-> | ->]; eauto.
Qed.

(** C8, as amended. With a verifier that refuses sets of fewer than two
    responses, a configuration query whose filtered set holds at most
    one response returns no artifact and an error: the error of Match,
    called on the filtered set, unless the filtered set is empty and
    the dispatch reported an error, in which case Match is not called
    and the dispatch error is returned, wrapped as "queryChaincode
    failed". *)
Theorem QueryConfigBlock_below_minimum c reqCtx t targets v tprs err :
  let q := queryChaincode reqCtx (chName c)
             (createConfigBlockInvokeRequest (chName c)) (t :: targets) (Some v) in
  let run := QueryConfigBlock c reqCtx (t :: targets) (Some v) in
  verifier.enforces_minimum v 2 ->
  value q = Returns (tprs, err) ->
  length tprs <= 1 ->
  exists e,
    value run = Returns (None, Some e) /\
    if not_nil err && (length tprs =? 0)%nat then
      Some e = errors.WithMessage err "queryChaincode failed" /\
      trace run = trace q
    else
      Some e = Match v tprs /\ trace run = trace q ++ [EvMatch tprs].
Proof.
  intros q run Hv Hq Hlen.
  pose proof (QueryConfigBlock_cases c reqCtx (t :: targets) (Some v) tprs err
                ltac:(done) Hq) as Hrun.
  fold q run in Hrun. rewrite Hrun.
  destruct (not_nil err && (length tprs =? 0)%nat) eqn:Hguard.
  - apply andb_true_iff in Hguard as [Herr _].
    destruct err as [e|]; [|discriminate]. exists (errors_WithMessage e "queryChaincode failed").
    done.
  - specialize (Hv tprs ltac:(lia)).
    destruct (Match v tprs) as [e|]; [|done]. by exists e.
Qed.

(** C6, on the code. QueryTransaction has no check of its transaction
    identifier: with the empty identifier, and a request context from
    which the proposal can be built, the proposal is created and sent
    to the targets. *)
Theorem QueryTransaction_empty_id_is_sent c reqCtx targets verifier ctx txh tp :
  let request := createTransactionByIDInvokeRequest (chName c) "" in
  let run := QueryTransaction ProcessedTransaction c reqCtx "" targets verifier in
  RequestClientContext reqCtx = Some ctx ->
  txn_NewHeader ctx (chName c) = Ok txh ->
  txn_CreateChaincodeInvokeProposal txh request = Ok tp ->
  exists rest,
    trace run =
      [EvNewHeader (chName c); EvCreateProposal request; EvSendProposal targets]
      ++ rest.
Proof.
  intros request run Hctx Hh Hp. unfold run, QueryTransaction.
  fold request.
  assert (Hq : exists o, queryChaincode reqCtx (chName c) request targets verifier =
                 ([EvNewHeader (chName c); EvCreateProposal request;
                   EvSendProposal targets], o)).
  { unfold queryChaincode. rewrite Hctx. run_go. rewrite Hh. run_go. rewrite Hp.
    run_go. destruct (txn_SendProposal reqCtx tp targets). eauto. }
  destruct Hq as [o ->]. rewrite bind_run.
  destruct o as [a|p]; simpl; [eauto|]. by exists [].
Qed.

(** QueryBlockByHash with a nil hash returns no block and the error
    "blockHash is required", and calls no collaborator. *)
Lemma QueryBlockByHash_nil_hash c reqCtx targets verifier :
  QueryBlockByHash (Target := Target) c reqCtx None targets verifier =
    ([], Returns (None, Some (errors_New "blockHash is required"))).
Proof. reflexivity. Qed.

(** QueryBlockByTxID with the empty identifier returns no block and the
    error "txID is required", and calls no collaborator. *)
Lemma QueryBlockByTxID_empty_id c reqCtx targets verifier :
  QueryBlockByTxID (Target := Target) c reqCtx "" targets verifier =
    ([], Returns (None, Some (errors_New "txID is required"))).
Proof. reflexivity. Qed.
End LedgerFacts.

(** ** The target selector *)

Section Selector.
Context {A : Type}.
Implicit Types (rand : nat -> nat) (targets candidates : list A).

Lemma sample_submseteq rand draw candidates k :
  chconfig.sample rand draw candidates k ⊆+ candidates.
Proof.
  revert draw candidates. induction k as [|k IH]; intros draw candidates; simpl.
  - apply submseteq_nil_l.
  - destruct (candidates !! (rand draw mod length candidates)) as [t|] eqn:Ht.
    + trans (t :: delete (rand draw mod length candidates) candidates).
      * apply submseteq_skip, IH.
      * apply Permutation_submseteq. symmetry. by apply delete_Permutation.
    + apply submseteq_nil_l.
Qed.

Lemma sample_length rand draw candidates k :
  k <= length candidates ->
  length (chconfig.sample rand draw candidates k) = k.
Proof.
  revert draw candidates. induction k as [|k IH]; intros draw candidates Hk; simpl.
  - reflexivity.
  - destruct (lookup_lt_is_Some_2 candidates (rand draw mod length candidates))
      as [t Ht].
    { apply Nat.mod_upper_bound. lia. }
    rewrite Ht. simpl. rewrite IH; [done|].
    rewrite length_delete by eauto. lia.
Qed.

(** C7. For every candidate list of size N and every bound k, whatever
    the random source draws, randomMaxTargets returns exactly min(k, N)
    targets, which form a sub-multiset of the candidates: every one is
    drawn from the list and none is taken more often than the list has
    it, so they are distinct when the candidates are. A bound of 0
    yields the empty list; a bound of N or more yields all the
    candidates, in some order. *)
Theorem randomMaxTargets_selects rand targets max :
  let selected := chconfig.randomMaxTargets rand targets max in
  length selected = min max (length targets) /\
  selected ⊆+ targets /\
  (forall t, t ∈ selected -> t ∈ targets) /\
  (NoDup targets -> NoDup selected) /\
  (max = 0 -> selected = []) /\
  (length targets <= max -> selected ≡ₚ targets).
Proof.
  intros selected.
  assert (Hsub : selected ⊆+ targets) by apply sample_submseteq.
  assert (Hlen : length selected = min max (length targets))
    by (apply sample_length; lia).
  split; [done|]. split; [done|]. split; [|split; [|split]].
  - intros t Ht. by eapply elem_of_submseteq.
  - intros Hnd. destruct (submseteq_Permutation _ _ Hsub) as [rest Hrest].
    rewrite Hrest in Hnd. by apply NoDup_app in Hnd as [? _].
  - intros ->. subst selected. reflexivity.
  - intros Hmax. apply submseteq_length_Permutation; [done|]. lia.
Qed.
End Selector.

(** The three calls of TestRandomMaxTargetsSelections, on nine targets. *)
Example randomMaxTargets_test_lengths (rand : nat -> nat) :
  let testTargets := ["ONE"; "TWO"; "THREE"; "FOUR"; "FIVE"; "SIX"; "SEVEN";
                      "EIGHT"; "NINE"] in
  length (chconfig.randomMaxTargets rand testTargets 3) = 3 /\
  length (chconfig.randomMaxTargets rand testTargets 0) = 0 /\
  length (chconfig.randomMaxTargets rand testTargets 12) = length testTargets.
Proof.
  intros testTargets. repeat split; apply sample_length; simpl; lia.
Qed.

(** The order of the selection need not be the order of the candidates. *)
Example randomMaxTargets_reorders :
  chconfig.randomMaxTargets (fun i => 7 * i + 5) [1; 2; 3; 4; 5; 6; 7; 8; 9] 12 =
    [6; 5; 8; 3; 7; 1; 9; 2; 4].
Proof. reflexivity. Qed.

(** ** The queries on canned responses *)

Section Examples.
Import wire mock.

Local Abbreviation QueryConfigBlock :=
  (QueryConfigBlock (Target := Peer) wire.ConfigEnvelope).
Local Abbreviation QueryTransaction :=
  (QueryTransaction (Target := Peer) wire.ProcessedTransaction).
Local Abbreviation malformed := (errors_New "proto: cannot parse message").

(** A well-formed configuration block yields its ConfigEnvelope; a
    block of another type is refused. *)
Example QueryConfigBlock_config_block :
  value (QueryConfigBlock testChannel true [peer "peer1" 200 config_block]
           (Some verifier.accept_all)) =
    Returns (Some {| wire.ConfigEnvelope_Config := None;
                     wire.ConfigEnvelope_LastUpdate := None |}, None).
Proof. reflexivity. Qed.

Example QueryConfigBlock_other_type :
  value (QueryConfigBlock testChannel true [peer "peer1" 200 (block_of 3)]
           (Some verifier.accept_all)) =
    Returns (None, Some (errors_New "block must be of type 'CONFIG'")).
Proof. reflexivity. Qed.

(** X2 on an envelope whose channel header has type 3
    (ENDORSER_TRANSACTION). *)
Lemma createConfigEnvelope_type_3 :
  createConfigEnvelope (Target := Peer) wire.ConfigEnvelope
    (envelope_with (payload_with (channel_header 3))) =
    ([], Returns (None, Some (errors_New "block must be of type 'CONFIG'"))).
Proof.
  apply (createConfigEnvelope_not_CONFIG (Target := Peer)
           (ConfigEnvelope := wire.ConfigEnvelope)
           (envelope_with (payload_with (channel_header 3)))
           {| Envelope_Payload := payload_with (channel_header 3);
              Envelope_Signature := [] |}
           {| Payload_Header :=
                Some {| Header_ChannelHeader := channel_header 3;
                        Header_SignatureHeader := [] |};
              Payload_Data := [] |}
           {| Header_ChannelHeader := channel_header 3;
              Header_SignatureHeader := [] |}
           {| ChannelHeader_Type := 3; ChannelHeader_ChannelId := "" |});
    try reflexivity.
  discriminate.
Defined.

(** C1, on the code. Not every failing step of the unwrap produces an
    error that identifies it. A payload that is no Block, and a Block
    without data entry, make QueryConfigBlock panic; and channel-header
    bytes that do not decode are reported with the very error of a
    payload that does not decode. *)
Theorem QueryConfigBlock_unwrap_failures :
  value (QueryConfigBlock testChannel true [peer "peer1" 200 garbage]
           (Some verifier.accept_all)) = Panics nil_dereference /\
  value (QueryConfigBlock testChannel true [peer "peer1" 200 (wire.put_bytes 2 [])]
           (Some verifier.accept_all)) = Panics (index_out_of_range 0 0) /\
  value (QueryConfigBlock testChannel true
           [peer "peer1" 200 (block_with (envelope_with garbage))]
           (Some verifier.accept_all)) =
    Returns (None, Some (errors_Wrap malformed "unmarshal payload from envelope failed")) /\
  value (QueryConfigBlock testChannel true
           [peer "peer1" 200 (block_with (envelope_with (payload_with garbage)))]
           (Some verifier.accept_all)) =
    Returns (None, Some (errors_Wrap malformed "unmarshal payload from envelope failed")).
Proof. repeat split; reflexivity. Qed.

(** C2 at a concrete query: with an empty payload the Block decodes with
    nil data, and the accepted response makes the query panic. *)
Lemma QueryConfigBlock_empty_payload_panics :
  exists p,
    value (QueryConfigBlock testChannel true [peer "peer1" 200 []]
             (Some verifier.accept_all)) = Panics p.
Proof.
  apply (QueryConfigBlock_undecodable_representative
           (ConfigEnvelope := wire.ConfigEnvelope)
           testChannel true (peer "peer1" 200 []) [] verifier.accept_all
           (respond (peer "peer1" 200 [])) [] None).
  - reflexivity.
  - reflexivity.
  - apply (no_data _ []); reflexivity.
Defined.

Lemma min_responses_enforces_minimum (n : nat) :
  verifier.enforces_minimum (verifier.min_responses (Z.of_nat n)) n.
Proof.
  intros responses Hlen. simpl. destruct responses as [|r rest]; [done|].
  destruct (Z.ltb_spec (Z.of_nat (length (r :: rest))) (Z.of_nat n)); [done|lia].
Qed.

(** C8 at a concrete query: one peer with a valid configuration block,
    and a minimum of two responses; the query fails with the error of
    Match. *)
Lemma QueryConfigBlock_one_valid_response_of_two :
  exists e,
    value (QueryConfigBlock testChannel true [peer "peer1" 200 config_block]
             (Some (verifier.min_responses 2))) = Returns (None, Some e) /\
    Some e = verifier.quorum_error 2 1 /\
    trace (QueryConfigBlock testChannel true [peer "peer1" 200 config_block]
             (Some (verifier.min_responses 2))) =
      trace (queryChaincode (Target := Peer) true "testChannel"
               (createConfigBlockInvokeRequest "testChannel")
               [peer "peer1" 200 config_block] (Some (verifier.min_responses 2)))
      ++ [EvMatch [respond (peer "peer1" 200 config_block)]].
Proof.
  apply (QueryConfigBlock_below_minimum
           (ConfigEnvelope := wire.ConfigEnvelope)
           testChannel true (peer "peer1" 200 config_block) []
           (verifier.min_responses 2)
           [respond (peer "peer1" 200 config_block)] None).
  - apply (min_responses_enforces_minimum 2).
  - reflexivity.
  - simpl. lia.
Defined.

(** C8 as stated fails here: one peer that answers with status 500, and
    a minimum of two responses. The query fails at the queryChaincode
    check, with the status error of the peer; Match is not called, and
    the error is not the one Match gives for the empty set. *)
Lemma QueryConfigBlock_one_failed_response_of_two :
  let run := QueryConfigBlock testChannel true [peer "peer1" 500 config_block]
               (Some (verifier.min_responses 2)) in
  value run =
    Returns (None, Some (errors_WithMessage
               (errors_Errorf "bad status from %s (%d)"
                  [ArgString "peer1"; ArgInt 500])
               "queryChaincode failed")) /\
  value run <> Returns (None, Match (verifier.min_responses 2) []) /\
  Forall (fun ev => forall rs, ev <> EvMatch rs) (trace run).
Proof.
  split; [reflexivity|]. split; [discriminate|].
  repeat constructor; discriminate.
Qed.

(** C6 at a concrete query: QueryTransaction with the empty identifier,
    on one peer. *)
Lemma QueryTransaction_empty_id_on_mock :
  exists rest,
    trace (QueryTransaction testChannel true "" [peer "peer1" 200 []] None) =
      [EvNewHeader "testChannel";
       EvCreateProposal (createTransactionByIDInvokeRequest "testChannel" "");
       EvSendProposal [peer "peer1" 200 []]] ++ rest.
Proof.
  apply (QueryTransaction_empty_id_is_sent
           (ProcessedTransaction := wire.ProcessedTransaction)
           testChannel true [peer "peer1" 200 []] None tt "testChannel"
           (createTransactionByIDInvokeRequest "testChannel" "")); reflexivity.
Defined.

(** C10 as stated fails here: when every response is retained the array
    of the input is left as it was. *)
Lemma filterResponses_all_retained_unchanged :
  let r1 := respond (peer "peer1" 200 []) in
  let r2 := respond (peer "peer2" 200 []) in
  store (filterResponses_loop [r1; r2] None None) = [r1; r2] /\
  fst (filterResponses [r1; r2] None None) = [r1; r2].
Proof. split; reflexivity. Qed.

(** A rejected response before a retained one: the first position is
    overwritten. *)
Example filterResponses_rejected_then_retained :
  let r1 := respond (peer "peer1" 500 []) in
  let r2 := respond (peer "peer2" 200 []) in
  store (filterResponses_loop [r1; r2] None None) = [r2; r2] /\
  fst (filterResponses [r1; r2] None None) = [r2].
Proof. split; reflexivity. Qed.
End Examples.

(** * Further properties *)

(** ** The response filter, as a whole *)

Section FilterAlgebra.
Variable verifier : option ResponseVerifier.

Local Abbreviation TPR := TransactionProposalResponse.
Local Abbreviation kept := (filter (retained verifier)).

(** The errors of the filter: the rejections of the batch appended to
    the errors passed in, one by one. *)
Local Abbreviation record :=
  (fun (errs : error) (r : TPR) =>
     match rejection verifier r with
     | Some e => multi.Append errs (Some e)
     | None => errs
     end).

Lemma after_errs (responses : list TPR) errs i :
  i <= length responses ->
  errs_acc (after verifier responses errs i) = foldl record errs (take i responses).
Proof.
  induction i as [|i IH]; intros Hi; [reflexivity|].
  destruct (after_invariant verifier responses errs i) as (Hstore & Hlen & _); [lia|].
  pose proof (kept_take_le verifier responses i) as Hle.
  destruct (lookup_lt_is_Some_2 responses i) as [x Hx]; [lia|].
  assert (Hread : store (after verifier responses errs i) !! i = Some x).
  { rewrite Hstore, lookup_app_r by lia.
    rewrite lookup_drop. rewrite <- Hx. f_equal. lia. }
  rewrite after_S, (filter_iteration_read _ _ _ _ Hread).
  rewrite (take_S_r _ _ _ Hx), foldl_app. simpl. rewrite <- IH by lia.
  by destruct (rejection verifier x).
Qed.

Lemma filterResponses_eq (responses : list TPR) errs :
  filterResponses responses errs verifier = (kept responses, foldl record errs responses).
Proof.
  destruct (filterResponses_loop_spec verifier responses errs) as (Hstore & Hlen & _).
  unfold filterResponses, filteredResponses. f_equal.
  - rewrite Hstore, Hlen. apply take_app_length.
  - pose proof (after_errs responses errs (length responses) (le_n _)) as H.
    rewrite firstn_all in H. exact H.
Qed.

Lemma record_retained (l : list TPR) errs :
  Forall (fun r => retained verifier r = true) l -> foldl record errs l = errs.
Proof.
  induction 1 as [|x l Hx _ IH]; [reflexivity|]. simpl.
  apply rejection_None in Hx. by rewrite Hx.
Qed.

Lemma Append_not_nil errs e : multi.Append errs (Some e) <> None.
Proof. destruct errs as [[]|]; discriminate. Qed.

Lemma record_nil_inv (l : list TPR) errs :
  foldl record errs l = None ->
  errs = None /\ Forall (fun r => retained verifier r = true) l.
Proof.
  revert errs. induction l as [|x l IH]; intros errs; simpl; [by split|].
  intros H. apply IH in H as [Hx Hl].
  destruct (rejection verifier x) as [e|] eqn:Hrej.
  - by apply Append_not_nil in Hx.
  - split; [done|]. constructor; [by apply rejection_None|done].
Qed.

(** X5. Filtering a batch made of two parts is filtering the first part
    and then the second part with the errors the first one left: the
    retained responses are concatenated, the errors are threaded. *)
Theorem filterResponses_app (l1 l2 : list TPR) errs :
  filterResponses (l1 ++ l2) errs verifier =
    (fst (filterResponses l1 errs verifier) ++
     fst (filterResponses l2 (snd (filterResponses l1 errs verifier)) verifier),
     snd (filterResponses l2 (snd (filterResponses l1 errs verifier)) verifier)).
Proof.
  rewrite !filterResponses_eq. simpl. by rewrite filter_app, foldl_app.
Qed.

(** X6. A batch that came out of the filter passes it unchanged: every
    response is retained again, in the same order, and the error passed
    in comes back as it is, nil included. *)
Theorem filterResponses_idempotent (responses : list TPR) errs errs' :
  filterResponses (fst (filterResponses responses errs verifier)) errs' verifier =
    (fst (filterResponses responses errs verifier), errs').
Proof.
  rewrite !filterResponses_eq. simpl.
  rewrite (kept_all verifier (kept responses)) by apply kept_retained.
  by rewrite record_retained by apply kept_retained.
Qed.

(** X7. The filter returns the nil error exactly when it was given the
    nil error and rejected nothing; it then returns the batch as it
    is. *)
Theorem filterResponses_nil_error (responses : list TPR) errs :
  snd (filterResponses responses errs verifier) = None <->
  errs = None /\ fst (filterResponses responses errs verifier) = responses.
Proof.
  rewrite filterResponses_eq. simpl. split.
  - intros H. apply record_nil_inv in H as [-> Hall]. split; [done|].
    by apply kept_all.
  - intros [-> Hk]. rewrite record_retained; [done|].
    rewrite <- Hk. apply kept_retained.
Qed.
End FilterAlgebra.

(** ** The queries that decode every response *)

Section ReadFacts.
Context {Target ReqCtx ClientCtx TxnHeader Proposal : Type}.
Context {ProcessedTransaction BlockchainInfo ChaincodeQueryResponse : Type}.
Context {transport : Transport Target ReqCtx ClientCtx TxnHeader Proposal}
        {builders : RequestBuilders}
        {read_builders : ReadRequestBuilders}.
Context {Block_msg : ProtoMessage Block}
        {ProcessedTransaction_msg : ProtoMessage ProcessedTransaction}
        {BlockchainInfo_msg : ProtoMessage BlockchainInfo}
        {ChaincodeQueryResponse_msg : ProtoMessage ChaincodeQueryResponse}.

Local Abbreviation TPR := TransactionProposalResponse.
Local Abbreviation Go := (M (Event Target)).
Local Abbreviation queryChaincode := (queryChaincode (Target := Target)).

Implicit Types (c : Ledger) (reqCtx : ReqCtx) (targets : list Target).
Implicit Types (verifier : option ResponseVerifier) (tprs : list TPR) (errs : error).

Lemma mret_bind {A B} (a : A) (k : A -> Go B) : mret a ≫= k = k a.
Proof. unfold mret, M_ret. rewrite bind_run. by destruct (k a). Qed.

Lemma response_payload_eq (tpr : TPR) :
  response_payload (Target := Target) tpr =
    ([], match payload_of tpr with
         | Some payload => Returns payload
         | None => Panics nil_dereference
         end).
Proof.
  unfold response_payload, payload_of.
  by destruct (GetResponse (ProposalResponse tpr)).
Qed.

(** The loop shared by the queries: [iter] decodes one response with
    [unmarshal], appends [mk tpr a] on success and records the failure
    otherwise. *)
Section Loop.
Context {A R : Type} (unmarshal : bytes -> result A) (mk : TPR -> A -> R).
Variable iter : list R * error -> TPR -> Go (list R * error).
Hypothesis iter_eq : forall rs errs tpr,
  iter (rs, errs) tpr =
    ([], match payload_of tpr with
         | None => Panics nil_dereference
         | Some payload =>
             match unmarshal payload with
             | Ok a => Returns (rs ++ [mk tpr a], errs)
             | Err e => Returns (rs, multi.Append errs (decode_failure tpr e))
             end
         end).

Lemma loop_panics tprs p :
  foldl (fun acc tpr => acc ← acc; iter acc tpr) ([], Panics p) tprs = ([], Panics p).
Proof. induction tprs as [|tpr tprs IH]; [reflexivity|]. simpl. exact IH. Qed.

Lemma loop_run tprs rs errs :
  foldl (fun acc tpr => acc ← acc; iter acc tpr) (mret (rs, errs)) tprs =
    ([], if forallb has_payload tprs then
           Returns (rs ++ omap (fun tpr => mk tpr <$> decoded_with unmarshal tpr) tprs,
                    record_failures unmarshal errs tprs)
         else Panics nil_dereference).
Proof.
  revert rs errs. induction tprs as [|tpr tprs IH]; intros rs errs.
  - simpl. by rewrite app_nil_r.
  - cbn [foldl]. rewrite mret_bind, iter_eq.
    unfold has_payload, decoded_with, record_failures, failure_with in *.
    cbn [forallb foldl omap list_omap]. 
    destruct (payload_of tpr) as [payload|]; [|apply loop_panics].
    destruct (unmarshal payload) as [a|e]; simpl.
    + change ([], Returns (rs ++ [mk tpr a], errs)) with
        (mret (M := Go) (rs ++ [mk tpr a], errs)).
      rewrite IH. by rewrite <- app_assoc.
    + change ([], Returns (rs, multi.Append errs (decode_failure tpr e))) with
        (mret (M := Go) (rs, multi.Append errs (decode_failure tpr e))).
      rewrite IH. reflexivity.
Qed.
End Loop.

Lemma entries_record_failures {A} (unmarshal : bytes -> result A) errs tprs :
  multi.entries (record_failures unmarshal errs tprs) =
    multi.entries errs ++ omap (failure_with unmarshal) tprs.
Proof.
  unfold record_failures. revert errs.
  induction tprs as [|tpr tprs IH]; intros errs; [simpl; by rewrite app_nil_r|].
  cbn [foldl omap list_omap]. rewrite IH.
  destruct (failure_with unmarshal tpr) as [e|] eqn:He; [|reflexivity].
  assert (Hone : multi.entries (multi.Append errs (Some e)) = multi.entries errs ++ [e]).
  { unfold failure_with in He. destruct (payload_of tpr); [|discriminate].
    destruct (unmarshal _); [discriminate|]. injection He as <-.
    destruct errs as [[]|]; reflexivity. }
  rewrite Hone, <- app_assoc. reflexivity.
Qed.

Lemma omap_pointers {A B} (f : A -> option B) (l : list A) :
  omap (fun x => Some <$> f x) l = map Some (omap f l).
Proof.
  induction l as [|x l IH]; [reflexivity|]. cbn [omap list_omap].
  destruct (f x); simpl; by rewrite IH.
Qed.

Lemma decoded_or_failed {A} (unmarshal : bytes -> result A) tprs :
  forallb has_payload tprs = true ->
  length (omap (decoded_with unmarshal) tprs) +
  length (omap (failure_with unmarshal) tprs) = length tprs.
Proof.
  induction tprs as [|tpr tprs IH]; [reflexivity|].
  cbn [forallb]. intros [Hp Hl]%andb_true_iff. specialize (IH Hl).
  unfold has_payload, decoded_with, failure_with in *. cbn [omap list_omap length].
  destruct (payload_of tpr); [|discriminate].
  destruct (unmarshal _); simpl in *; lia.
Qed.

Lemma retained_true verifier (r : TPR) :
  retained verifier r = true ->
  Status r = 200%Z /\ forall v, verifier = Some v -> Verify v r = None.
Proof.
  unfold retained. intros [Hs Hv]%andb_true_iff. split.
  - by apply Z.eqb_eq in Hs.
  - intros v ->. by destruct (Verify v r).
Qed.

(** What the dispatch returns has passed the filter. *)
Lemma queryChaincode_retained reqCtx channelID request targets verifier tprs errs :
  value (queryChaincode reqCtx channelID request targets verifier) = Returns (tprs, errs) ->
  Forall (fun r => retained verifier r = true) tprs.
Proof.
  unfold queryChaincode.
  destruct (RequestClientContext reqCtx) as [ctx|]; [|by intros [= <- _]].
  destruct (txn_NewHeader ctx channelID) as [txh|e]; [|by intros [= <- _]].
  destruct (txn_CreateChaincodeInvokeProposal txh request) as [tp|e];
    [|by intros [= <- _]].
  destruct (txn_SendProposal reqCtx tp targets) as [raw errs0]. run_go.
  rewrite filterResponses_eq. intros [= <- _]. apply kept_retained.
Qed.

Lemma getConfigBlocks_iteration_eq (rs : list (option Block)) errs (tpr : TPR) :
  getConfigBlocks_iteration (Target := Target) (rs, errs) tpr =
    ([], match payload_of tpr with
         | None => Panics nil_dereference
         | Some payload =>
             match proto_Unmarshal payload with
             | Ok a => Returns (rs ++ [Some a], errs)
             | Err e => Returns (rs, multi.Append errs (decode_failure tpr e))
             end
         end).
Proof.
  unfold getConfigBlocks_iteration, createCommonBlock.
  rewrite response_payload_eq.
  destruct (payload_of tpr) as [payload|]; [|reflexivity].
  rewrite !bind_run. simpl. by destruct (proto_Unmarshal payload).
Qed.

Lemma getConfigBlocks_eq tprs :
  getConfigBlocks (Target := Target) tprs =
    ([], if forallb has_payload tprs then
           Returns (omap (fun tpr => Some <$> decoded_with proto_Unmarshal tpr) tprs,
                    record_failures (proto_Unmarshal (A := Block)) None tprs)
         else Panics nil_dereference).
Proof.
  unfold getConfigBlocks.
  apply (loop_run proto_Unmarshal (fun _ a => Some a) _ getConfigBlocks_iteration_eq).
Qed.

(** X8. getConfigBlocks decodes every response of the batch: it returns
    the blocks of the responses that decode, in the order of the batch
    and as non-nil pointers, and records one error for each response that
    does not, naming its target; no result is lost to the failure of
    another response, and no collaborator is called. When a response
    carries no payload message the call panics. *)
Theorem getConfigBlocks_partial_failure tprs :
  let blocks := omap (decoded_with (proto_Unmarshal (A := Block))) tprs in
  let failures := omap (failure_with (proto_Unmarshal (A := Block))) tprs in
  (if forallb has_payload tprs then
     exists errs,
       getConfigBlocks (Target := Target) tprs = ([], Returns (map Some blocks, errs)) /\
       multi.entries errs = failures /\
       length blocks + length failures = length tprs
   else getConfigBlocks (Target := Target) tprs = ([], Panics nil_dereference)) /\
  (forall tpr e, failure_with (proto_Unmarshal (A := Block)) tpr = Some e ->
     exists cause,
       e = errors_WithMessage cause ("From target: " ++ Endorser tpr)%string).
Proof.
  intros blocks failures. split.
  - rewrite getConfigBlocks_eq.
    destruct (forallb has_payload tprs) eqn:Hall; [|reflexivity].
    exists (record_failures (proto_Unmarshal (A := Block)) None tprs).
    subst blocks failures.
    split; [|split].
    + rewrite omap_pointers. reflexivity.
    + rewrite entries_record_failures. reflexivity.
    + by apply decoded_or_failed.
  - intros tpr e. unfold failure_with.
    destruct (payload_of tpr); [|discriminate].
    destruct (proto_Unmarshal _); [discriminate|]. intros [= <-]. eauto.
Qed.

(** The dispatch in full: which collaborators it calls, and what it
    returns when one of them fails. *)
Lemma queryChaincode_eq reqCtx channelID request targets verifier :
  queryChaincode reqCtx channelID request targets verifier =
    match RequestClientContext reqCtx with
    | None =>
        ([], Returns ([], errors.New
               "failed get client context from reqContext for signProposal"))
    | Some ctx =>
        match txn_NewHeader ctx channelID with
        | Err e =>
            ([EvNewHeader channelID],
             Returns ([], Some (errors_WithMessage e "creation of transaction ID failed")))
        | Ok txh =>
            match txn_CreateChaincodeInvokeProposal txh request with
            | Err e =>
                ([EvNewHeader channelID; EvCreateProposal request],
                 Returns ([], Some (errors_WithMessage e "NewProposal failed")))
            | Ok tp =>
                ([EvNewHeader channelID; EvCreateProposal request;
                  EvSendProposal targets],
                 Returns (filterResponses
                            (fst (txn_SendProposal reqCtx tp targets))
                            (snd (txn_SendProposal reqCtx tp targets)) verifier))
            end
        end
    end.
Proof.
  unfold queryChaincode.
  destruct (RequestClientContext reqCtx) as [ctx|]; [|reflexivity].
  destruct (txn_NewHeader ctx channelID) as [txh|e]; [|reflexivity].
  destruct (txn_CreateChaincodeInvokeProposal txh request) as [tp|e]; [|reflexivity].
  by destruct (txn_SendProposal reqCtx tp targets).
Qed.

Lemma queryChaincode_trace_prefix reqCtx channelID request targets verifier :
  trace (queryChaincode reqCtx channelID request targets verifier) `prefix_of`
    [EvNewHeader channelID; EvCreateProposal request; EvSendProposal targets].
Proof.
  rewrite queryChaincode_eq.
  destruct (RequestClientContext reqCtx) as [ctx|]; [|apply prefix_nil].
  destruct (txn_NewHeader ctx channelID) as [txh|e]; [|by eexists].
  destruct (txn_CreateChaincodeInvokeProposal txh request) as [tp|e];
    [|by eexists].
  by exists [].
Qed.


(** The block queries after their checks: dispatch, then getConfigBlocks
    on what the dispatch returned. *)
Lemma block_query_run (q : Go (list TPR * error)) tprs errs :
  value q = Returns (tprs, errs) ->
  ('(tprs, errs) ← q;
   '(responses, errors) ← getConfigBlocks tprs;
   mret (responses, multi.Append errs errors)) =
    (trace q,
     if forallb has_payload tprs then
       Returns (map Some (omap (decoded_with (proto_Unmarshal (A := Block))) tprs),
                multi.Append errs
                  (record_failures (proto_Unmarshal (A := Block)) None tprs))
     else Panics nil_dereference).
Proof.
  destruct q as [t o]. intros Hq. simpl in Hq. subst o. rewrite bind_run.
  cbn beta iota. rewrite getConfigBlocks_eq, bind_run, omap_pointers.
  destruct (forallb has_payload tprs); simpl; by rewrite app_nil_r.
Qed.

(** X10. QueryBlock has no check of the block number: it always
    dispatches, then decodes every retained response. It returns the
    blocks that decode, as non-nil pointers in the order of the retained
    responses, with the error of the dispatch followed by the aggregated
    decode errors; it calls no collaborator after the dispatch, and
    panics when a retained response carries no payload message. *)
Theorem QueryBlock_run c reqCtx (blockNumber : N) targets verifier :
  let q := queryChaincode reqCtx (chName c)
             (createBlockByNumberInvokeRequest (chName c) blockNumber)
             targets verifier in
  exists tprs errs,
    value q = Returns (tprs, errs) /\
    QueryBlock (Target := Target) c reqCtx blockNumber targets verifier =
      (trace q,
       if forallb has_payload tprs then
         Returns (map Some (omap (decoded_with (proto_Unmarshal (A := Block))) tprs),
                  multi.Append errs
                    (record_failures (proto_Unmarshal (A := Block)) None tprs))
       else Panics nil_dereference).
Proof.
  intros q.
  destruct (queryChaincode_returns (Target := Target) reqCtx (chName c)
              (createBlockByNumberInvokeRequest (chName c) blockNumber)
              targets verifier) as (tprs & errs & Hq).
  exists tprs, errs. split; [done|]. by apply block_query_run.
Qed.

(** X3. QueryBlockByHash refuses the nil hash alone: with a nil hash it
    returns a nil list and the error "blockHash is required" and calls no
    collaborator; with any other hash, the empty one included, it
    dispatches the request for that hash and returns a non-nil list: the
    blocks of the retained responses that decode, with the aggregated
    errors. *)
Theorem QueryBlockByHash_run c reqCtx (blockHash : option bytes) targets verifier :
  match blockHash with
  | None =>
      QueryBlockByHash (Target := Target) c reqCtx None targets verifier =
        ([], Returns (None, Some (errors_New "blockHash is required")))
  | Some hash =>
      let q := queryChaincode reqCtx (chName c)
                 (createBlockByHashInvokeRequest (chName c) hash) targets verifier in
      exists tprs errs,
        value q = Returns (tprs, errs) /\
        QueryBlockByHash (Target := Target) c reqCtx (Some hash) targets verifier =
          (trace q,
           if forallb has_payload tprs then
             Returns (Some (map Some
                        (omap (decoded_with (proto_Unmarshal (A := Block))) tprs)),
                      multi.Append errs
                        (record_failures (proto_Unmarshal (A := Block)) None tprs))
           else Panics nil_dereference)
  end.
Proof.
  destruct blockHash as [hash|]; [|reflexivity]. intros q.
  destruct (queryChaincode_returns (Target := Target) reqCtx (chName c)
              (createBlockByHashInvokeRequest (chName c) hash)
              targets verifier) as (tprs & errs & Hq).
  exists tprs, errs. split; [done|].
  unfold QueryBlockByHash. fold q. change (value q = Returns (tprs, errs)) in Hq.
  clearbody q. destruct q as [t o]. simpl in Hq. subst o.
  rewrite bind_run. cbn beta iota. rewrite getConfigBlocks_eq, bind_run, omap_pointers.
  destruct (forallb has_payload tprs); simpl; by rewrite app_nil_r.
Qed.

(** X4. QueryBlockByTxID refuses the empty transaction identifier alone:
    with it, the call returns a nil list and the error "txID is required"
    and calls no collaborator; with any other identifier it dispatches
    the request for it and returns a non-nil list: the blocks of the
    retained responses that decode, with the aggregated errors. *)
Theorem QueryBlockByTxID_run c reqCtx (txID : string) targets verifier :
  let q := queryChaincode reqCtx (chName c)
             (createBlockByTxIDInvokeRequest (chName c) txID) targets verifier in
  exists tprs errs,
    value q = Returns (tprs, errs) /\
    QueryBlockByTxID (Target := Target) c reqCtx txID targets verifier =
      if decide (txID = "") then
        ([], Returns (None, Some (errors_New "txID is required")))
      else
        (trace q,
         if forallb has_payload tprs then
           Returns (Some (map Some
                      (omap (decoded_with (proto_Unmarshal (A := Block))) tprs)),
                    multi.Append errs
                      (record_failures (proto_Unmarshal (A := Block)) None tprs))
         else Panics nil_dereference).
Proof.
  intros q.
  destruct (queryChaincode_returns (Target := Target) reqCtx (chName c)
              (createBlockByTxIDInvokeRequest (chName c) txID)
              targets verifier) as (tprs & errs & Hq).
  exists tprs, errs. split; [done|].
  unfold QueryBlockByTxID. destruct (String.eqb_spec txID "") as [->|Hne].
  - by rewrite decide_True.
  - rewrite decide_False by done.
    fold q. change (value q = Returns (tprs, errs)) in Hq.
    clearbody q. destruct q as [t o]. simpl in Hq. subst o.
    rewrite bind_run. cbn beta iota.
    rewrite getConfigBlocks_eq, bind_run, omap_pointers.
    destruct (forallb has_payload tprs); simpl; by rewrite app_nil_r.
Qed.

Lemma QueryInfo_iteration_eq
    (rs : list (BlockchainInfoResponse BlockchainInfo)) errs (tpr : TPR) :
  QueryInfo_iteration (Target := Target) BlockchainInfo (rs, errs) tpr =
    ([], match payload_of tpr with
         | None => Panics nil_dereference
         | Some payload =>
             match proto_Unmarshal payload with
             | Ok a =>
                 Returns (rs ++ [{| BCIR_Endorser := Endorser tpr;
                                    BCIR_Status := Status tpr;
                                    BCIR_BCI := Some a |}], errs)
             | Err e => Returns (rs, multi.Append errs (decode_failure tpr e))
             end
         end).
Proof.
  unfold QueryInfo_iteration, createBlockchainInfo.
  rewrite response_payload_eq.
  destruct (payload_of tpr) as [payload|]; [|reflexivity].
  rewrite !bind_run. simpl. by destruct (proto_Unmarshal payload).
Qed.

Lemma QueryTransaction_iteration_eq
    (rs : list (option ProcessedTransaction)) errs (tpr : TPR) :
  QueryTransaction_iteration (Target := Target) ProcessedTransaction (rs, errs) tpr =
    ([], match payload_of tpr with
         | None => Panics nil_dereference
         | Some payload =>
             match proto_Unmarshal payload with
             | Ok a => Returns (rs ++ [Some a], errs)
             | Err e => Returns (rs, multi.Append errs (decode_failure tpr e))
             end
         end).
Proof.
  unfold QueryTransaction_iteration, createProcessedTransaction.
  rewrite response_payload_eq.
  destruct (payload_of tpr) as [payload|]; [|reflexivity].
  rewrite !bind_run. simpl. by destruct (proto_Unmarshal payload).
Qed.

Lemma QueryInstantiatedChaincodes_iteration_eq
    (rs : list (option ChaincodeQueryResponse)) errs (tpr : TPR) :
  QueryInstantiatedChaincodes_iteration (Target := Target) ChaincodeQueryResponse
    (rs, errs) tpr =
    ([], match payload_of tpr with
         | None => Panics nil_dereference
         | Some payload =>
             match proto_Unmarshal payload with
             | Ok a => Returns (rs ++ [Some a], errs)
             | Err e => Returns (rs, multi.Append errs (decode_failure tpr e))
             end
         end).
Proof.
  unfold QueryInstantiatedChaincodes_iteration, createChaincodeQueryResponse.
  rewrite response_payload_eq.
  destruct (payload_of tpr) as [payload|]; [|reflexivity].
  rewrite !bind_run. simpl. by destruct (proto_Unmarshal payload).
Qed.

(** The ledger info of one response. *)
Local Abbreviation info_of :=
  (fun (tpr : TPR) (a : BlockchainInfo) =>
     {| BCIR_Endorser := Endorser tpr; BCIR_Status := Status tpr; BCIR_BCI := Some a |}).

(** X11. QueryInfo returns one entry for each retained response whose
    payload decodes, in the order of the retained responses, and adds
    one error naming the target for each that does not; it calls no
    collaborator after the dispatch and panics when a retained response
    carries no payload message. Every entry it returns has status 200, a
    non-nil BCI and the endorser of a retained response. *)
Theorem QueryInfo_run c reqCtx targets verifier :
  let q := queryChaincode reqCtx (chName c)
             (createChannelInfoInvokeRequest (chName c)) targets verifier in
  let run := QueryInfo (Target := Target) BlockchainInfo c reqCtx targets verifier in
  exists tprs errs,
    value q = Returns (tprs, errs) /\
    run =
      (trace q,
       if forallb has_payload tprs then
         Returns (omap (fun tpr => info_of tpr <$> decoded_with proto_Unmarshal tpr) tprs,
                  record_failures (proto_Unmarshal (A := BlockchainInfo)) errs tprs)
       else Panics nil_dereference) /\
    (forall infos errs', value run = Returns (infos, errs') ->
       Forall (fun info =>
                 BCIR_Status info = 200%Z /\ is_Some (BCIR_BCI info) /\
                 exists tpr, tpr ∈ tprs /\ BCIR_Endorser info = Endorser tpr) infos /\
       multi.entries errs' =
         multi.entries errs ++
         omap (failure_with (proto_Unmarshal (A := BlockchainInfo))) tprs).
Proof.
  intros q run.
  destruct (queryChaincode_returns (Target := Target) reqCtx (chName c)
              (createChannelInfoInvokeRequest (chName c))
              targets verifier) as (tprs & errs & Hq).
  exists tprs, errs. split; [done|].
  pose proof (queryChaincode_retained _ _ _ _ _ _ _ Hq) as Hret.
  assert (Hrun : run =
    (trace q,
     if forallb has_payload tprs then
       Returns (omap (fun tpr => info_of tpr <$> decoded_with proto_Unmarshal tpr) tprs,
                record_failures (proto_Unmarshal (A := BlockchainInfo)) errs tprs)
     else Panics nil_dereference)).
  { unfold run, QueryInfo. fold q. change (value q = Returns (tprs, errs)) in Hq.
    clearbody q. destruct q as [t o]. simpl in Hq. subst o.
    rewrite bind_run. cbn beta iota.
    rewrite (loop_run proto_Unmarshal info_of _ QueryInfo_iteration_eq).
    simpl. by rewrite app_nil_r. }
  split; [exact Hrun|].
  intros infos errs'. rewrite Hrun. simpl.
  destruct (forallb has_payload tprs); [|discriminate].
  intros [= <- <-]. split; [|apply entries_record_failures].
  apply Forall_forall. intros info [tpr [Htpr Hinfo]]%list_elem_of_omap.
  destruct (decoded_with proto_Unmarshal tpr) as [a|]; [|discriminate].
  injection Hinfo as <-. simpl. split; [|split; [done|by exists tpr]].
  rewrite Forall_forall in Hret.
  by destruct (retained_true _ _ (Hret tpr Htpr)) as [? _].
Qed.

(** X12. QueryTransaction dispatches its request and returns a non-nil
    list: the transactions of the retained responses
    that decode, as non-nil pointers in their order, and the dispatch
    error with one more entry, naming the target, for each retained
    response that does not decode. It calls no collaborator after the
    dispatch and panics when a retained response carries no payload
    message. *)
Theorem QueryTransaction_run c reqCtx (transactionID : string) targets verifier :
  let q := queryChaincode reqCtx (chName c)
             (createTransactionByIDInvokeRequest (chName c) transactionID)
             targets verifier in
  exists tprs errs,
    value q = Returns (tprs, errs) /\
    QueryTransaction (Target := Target) ProcessedTransaction c reqCtx transactionID
      targets verifier =
      (trace q,
       if forallb has_payload tprs then
         Returns (Some (map Some
                    (omap (decoded_with (proto_Unmarshal (A := ProcessedTransaction)))
                       tprs)),
                  record_failures (proto_Unmarshal (A := ProcessedTransaction)) errs tprs)
       else Panics nil_dereference) /\
    multi.entries
      (record_failures (proto_Unmarshal (A := ProcessedTransaction)) errs tprs) =
      multi.entries errs ++
      omap (failure_with (proto_Unmarshal (A := ProcessedTransaction))) tprs.
Proof.
  intros q.
  destruct (queryChaincode_returns (Target := Target) reqCtx (chName c)
              (createTransactionByIDInvokeRequest (chName c) transactionID)
              targets verifier) as (tprs & errs & Hq).
  exists tprs, errs. split; [done|]. split; [|apply entries_record_failures].
  unfold QueryTransaction. fold q. change (value q = Returns (tprs, errs)) in Hq.
  clearbody q. destruct q as [t o]. simpl in Hq. subst o.
  rewrite bind_run. cbn beta iota.
  rewrite (loop_run proto_Unmarshal (fun _ a => Some a) _ QueryTransaction_iteration_eq).
  rewrite bind_run, omap_pointers.
  destruct (forallb has_payload tprs); simpl; by rewrite app_nil_r.
Qed.

(** X13. QueryInstantiatedChaincodes asks every channel the same thing:
    the request it dispatches is the one for function getchaincodes of
    chaincode lscc, without arguments; the channel name goes to the
    header only. It returns the chaincode lists of the retained responses
    that decode and the dispatch error with one more entry for each that
    does not. *)
Theorem QueryInstantiatedChaincodes_run c reqCtx targets verifier :
  let request := {| ChaincodeID := "lscc"; Fcn := "getchaincodes"; Args := [] |} in
  let q := queryChaincode reqCtx (chName c) request targets verifier in
  exists tprs errs,
    value q = Returns (tprs, errs) /\
    QueryInstantiatedChaincodes (Target := Target) ChaincodeQueryResponse c reqCtx
      targets verifier =
      (trace q,
       if forallb has_payload tprs then
         Returns (map Some
                    (omap (decoded_with (proto_Unmarshal (A := ChaincodeQueryResponse)))
                       tprs),
                  record_failures (proto_Unmarshal (A := ChaincodeQueryResponse)) errs tprs)
       else Panics nil_dereference) /\
    (forall ev, ev ∈ trace q ->
       ev = EvNewHeader (chName c) \/ ev = EvCreateProposal request \/
       ev = EvSendProposal targets).
Proof.
  intros request q.
  destruct (queryChaincode_returns (Target := Target) reqCtx (chName c)
              request targets verifier) as (tprs & errs & Hq).
  exists tprs, errs. split; [done|]. split.
  - unfold QueryInstantiatedChaincodes.
    change createChaincodeInvokeRequest with request. fold q.
    change (value q = Returns (tprs, errs)) in Hq.
    clearbody q. destruct q as [t o]. simpl in Hq. subst o.
    rewrite bind_run. cbn beta iota.
    rewrite (loop_run proto_Unmarshal (fun _ a => Some a) _
               QueryInstantiatedChaincodes_iteration_eq).
    rewrite omap_pointers.
    destruct (forallb has_payload tprs); simpl; by rewrite app_nil_r.
  - intros ev Hev.
    destruct (queryChaincode_trace_prefix reqCtx (chName c) request targets verifier)
      as [k Hk].
    fold q in Hk. assert (Hin : ev ∈ trace q ++ k) by (apply elem_of_app; auto).
    rewrite <- Hk in Hin. rewrite !elem_of_cons in Hin.
    destruct Hin as [?|[?|[?|Hnil]]]; auto. by apply elem_of_nil in Hnil.
Qed.

Lemma collectProposalResponses_loop tprs (rs : list bytes) :
  foldl (fun acc tpr => acc ← acc;
           collectProposalResponses_iteration (Target := Target) acc tpr)
    (mret rs) tprs =
    ([], if forallb has_payload tprs then Returns (rs ++ omap payload_of tprs)
         else Panics nil_dereference).
Proof.
  revert rs. induction tprs as [|tpr tprs IH]; intros rs.
  - simpl. by rewrite app_nil_r.
  - cbn [foldl]. rewrite mret_bind.
    unfold collectProposalResponses_iteration. rewrite response_payload_eq.
    unfold has_payload. cbn [forallb omap list_omap].
    destruct (payload_of tpr) as [payload|]; simpl.
    + change ([], Returns (rs ++ [payload])) with (mret (M := Go) (rs ++ [payload])).
      rewrite IH. by rewrite <- app_assoc.
    + clear. induction tprs as [|x tprs IH]; [reflexivity|]. simpl. exact IH.
Qed.

(** X14. collectProposalResponses returns the payloads of the responses,
    one for each and in their order, and calls no collaborator; it
    panics when a response carries no payload message. *)
Theorem collectProposalResponses_run tprs :
  collectProposalResponses (Target := Target) tprs =
    ([], if forallb has_payload tprs then Returns (omap payload_of tprs)
         else Panics nil_dereference) /\
  (forallb has_payload tprs = true ->
   length (omap payload_of tprs) = length tprs /\
   forall i tpr, tprs !! i = Some tpr -> omap payload_of tprs !! i = payload_of tpr).
Proof.
  split; [apply (collectProposalResponses_loop tprs [])|].
  induction tprs as [|tpr tprs IH]; [by split; [|intros ? ? [=]]|].
  cbn [forallb]. intros [Hp Hl]%andb_true_iff. destruct (IH Hl) as [Hlen Hnth].
  unfold has_payload in Hp. cbn [omap list_omap].
  destruct (payload_of tpr) as [payload|] eqn:Htpr; [|discriminate].
  split; [simpl; by rewrite Hlen|].
  intros [|i] x; simpl; [by intros [= <-]|apply Hnth].
Qed.
End ReadFacts.

(** ** The configuration query, end to end *)

Section ConfigFacts.
Context {Target ReqCtx ClientCtx TxnHeader Proposal : Type}.
Context {ConfigEnvelope : Type}.
Context {transport : Transport Target ReqCtx ClientCtx TxnHeader Proposal}
        {builders : RequestBuilders}.
Context {Block_msg : ProtoMessage Block}
        {Envelope_msg : ProtoMessage Envelope}
        {Payload_msg : ProtoMessage Payload}
        {ChannelHeader_msg : ProtoMessage ChannelHeader}
        {ConfigEnvelope_msg : ProtoMessage ConfigEnvelope}.

Local Abbreviation TPR := TransactionProposalResponse.
Local Abbreviation Go := (M (Event Target)).
Local Abbreviation QueryConfigBlock := (QueryConfigBlock (Target := Target) ConfigEnvelope).
Local Abbreviation after_Match := (after_Match (Target := Target) ConfigEnvelope).
Local Abbreviation createConfigEnvelope :=
  (createConfigEnvelope (Target := Target) ConfigEnvelope).
Local Abbreviation queryChaincode := (queryChaincode (Target := Target)).

Implicit Types (c : Ledger) (reqCtx : ReqCtx) (targets : list Target).
Implicit Types (verifier : option ResponseVerifier) (v : ResponseVerifier).
Implicit Types (tprs : list TPR) (err : error).

(** The extraction reads the first data entry of the first response and
    nothing else; without such an entry it panics. *)
Lemma after_Match_eq tprs :
  match first_data_entry tprs with
  | Some data0 => after_Match tprs = createConfigEnvelope data0
  | None => exists p, after_Match tprs = ([], Panics p)
  end.
Proof.
  unfold first_data_entry, after_Match, createCommonBlock, response_payload,
    decoded_with, payload_of.
  destruct (tprs !! 0) as [tpr0|] eqn:H0; run_go; rewrite H0; [|eauto].
  destruct (GetResponse (ProposalResponse tpr0)) as [r|]; run_go; [|eauto].
  destruct (proto_Unmarshal (Response_Payload r)) as [block|]; run_go; [|eauto].
  destruct (Block_Data block) as [d|]; run_go; [|eauto].
  destruct (BlockData_Data d !! 0) as [data0|]; run_go; [|eauto].
  by destruct (createConfigEnvelope data0).
Qed.

(** X15. QueryConfigBlock returns an artifact exactly when there is a
    target, there is a verifier, its Match accepts the filtered set, the
    first response of the set decodes to a block with a first data entry,
    and the unwrap of that entry returns the artifact. The other
    responses and the other data entries are not read. *)
Theorem QueryConfigBlock_artifact_iff c reqCtx targets verifier cfg e :
  value (QueryConfigBlock c reqCtx targets verifier) = Returns (Some cfg, e) <->
  targets <> [] /\
  exists v tprs err data0,
    verifier = Some v /\
    value (queryChaincode reqCtx (chName c)
             (createConfigBlockInvokeRequest (chName c)) targets verifier) =
      Returns (tprs, err) /\
    Match v tprs = None /\
    first_data_entry tprs = Some data0 /\
    value (createConfigEnvelope data0) = Returns (Some cfg, e).
Proof.
  destruct targets as [|t targets].
  { split; [discriminate|by intros [? _]]. }
  destruct (queryChaincode_returns (Target := Target) reqCtx (chName c)
              (createConfigBlockInvokeRequest (chName c)) (t :: targets) verifier)
    as (tprs & err & Hq).
  rewrite (QueryConfigBlock_cases c reqCtx (t :: targets) verifier tprs err
             ltac:(done) Hq).
  pose proof (after_Match_eq tprs) as Hextract.
  split.
  - destruct (not_nil err && (length tprs =? 0)%nat); [discriminate|].
    destruct verifier as [v|]; [|discriminate].
    destruct (Match v tprs) eqn:Hm; [discriminate|]. simpl.
    destruct (first_data_entry tprs) as [data0|] eqn:Hd.
    + rewrite Hextract. intros Hcfg. split; [done|].
      by exists v, tprs, err, data0.
    + destruct Hextract as [p ->]. discriminate.
  - intros (_ & v & tprs' & err' & data0 & -> & Hq' & Hm & Hd & Hcfg).
    rewrite Hq in Hq'. injection Hq' as <- <-.
    rewrite Hd in Hextract.
    assert (Hne : (length tprs =? 0)%nat = false).
    { destruct tprs; [discriminate|done]. }
    rewrite Hne, andb_false_r, Hm. simpl. by rewrite Hextract.
Qed.

(** X16. When no target answers and none fails, so that the filtered set
    is empty and the dispatch error nil, the outcome of QueryConfigBlock
    rests with the verifier: without a verifier the call panics on the
    nil interface; when Match refuses the empty set its error is
    returned; when Match accepts the empty set the call panics reading
    the first response. *)
Theorem QueryConfigBlock_empty_set c reqCtx t targets verifier :
  let q := queryChaincode reqCtx (chName c)
             (createConfigBlockInvokeRequest (chName c)) (t :: targets) verifier in
  value q = Returns ([], None) ->
  QueryConfigBlock c reqCtx (t :: targets) verifier =
    match verifier with
    | None => (trace q, Panics nil_dereference)
    | Some v =>
        match Match v [] with
        | Some e => (trace q ++ [EvMatch []], Returns (None, Some e))
        | None => (trace q ++ [EvMatch []], Panics (index_out_of_range 0 0))
        end
    end.
Proof.
  intros q Hq.
  rewrite (QueryConfigBlock_cases c reqCtx (t :: targets) verifier [] None
             ltac:(done) Hq).
  simpl. fold q. destruct verifier as [v|]; [|done].
  by destruct (Match v []).
Qed.

(** X17. The unwrap panics exactly when the envelope and its payload
    decode and the payload has no header; the panic is a nil
    dereference. In every other case it returns, and never with both the
    artifact and the error nil. *)
Theorem createConfigEnvelope_panics_iff data :
  (forall p,
     value (createConfigEnvelope data) = Panics p <->
     p = nil_dereference /\
     exists envelope payload,
       proto_Unmarshal data = Ok envelope /\
       proto_Unmarshal (Envelope_Payload envelope) = Ok payload /\
       Payload_Header payload = None) /\
  value (createConfigEnvelope data) <> Returns (None, None).
Proof.
  unfold createConfigEnvelope.
  destruct (proto_Unmarshal data) as [envelope|] eqn:He.
  2:{ split; [|discriminate]. intros p. split; [discriminate|].
      by intros (_ & ? & ? & [=] & _). }
  destruct (proto_Unmarshal (Envelope_Payload envelope)) as [payload|] eqn:Hp.
  2:{ split; [|discriminate]. intros p. split; [discriminate|].
      intros (_ & ? & ? & [= <-] & Hp' & _). congruence. }
  destruct (Payload_Header payload) as [header|] eqn:Hh.
  2:{ split; [|discriminate]. intros p. simpl. split.
      - intros [= <-]. split; [done|]. by exists envelope, payload.
      - by intros (-> & _). }
  simpl.
  assert (Hno : forall p,
            ~ (p = nil_dereference /\
               exists envelope0 payload0,
                 Ok envelope = Ok envelope0 /\
                 proto_Unmarshal (Envelope_Payload envelope0) = Ok payload0 /\
                 Payload_Header payload0 = None)).
  { intros p (_ & ? & ? & [= <-] & Hp' & Hh'). congruence. }
  destruct (proto_Unmarshal (Header_ChannelHeader header)) as [ch|].
  2:{ split; [|discriminate]. intros p. split; [discriminate|].
      intros H. by apply Hno in H. }
  destruct (negb _).
  { split; [|discriminate]. intros p. split; [discriminate|].
    intros H. by apply Hno in H. }
  destruct (proto_Unmarshal (Payload_Data payload)).
  all: split; [|discriminate]; intros p; (split; [discriminate|]);
    intros H; by apply Hno in H.
Qed.
End ConfigFacts.

(** ** The edge cases on canned responses *)

Section MoreExamples.
Import wire mock mock_reads.

(** X16 at a concrete query: no target answers, and the verifier accepts
    any set. *)
Lemma QueryConfigBlock_silent_targets :
  QueryConfigBlock (transport := silent) wire.ConfigEnvelope testChannel true
    [peer "peer1" 200 config_block] (Some verifier.accept_all) =
    ([EvNewHeader "testChannel";
      EvCreateProposal (createConfigBlockInvokeRequest "testChannel");
      EvSendProposal [peer "peer1" 200 config_block];
      EvMatch []],
     Panics (index_out_of_range 0 0)).
Proof.
  apply (QueryConfigBlock_empty_set (transport := silent)
           (ConfigEnvelope := wire.ConfigEnvelope)
           testChannel true (peer "peer1" 200 config_block) []
           (Some verifier.accept_all)).
  reflexivity.
Defined.

(** An empty envelope decodes, its empty payload decodes without a
    header, and the unwrap panics. *)
Example createConfigEnvelope_empty_envelope :
  createConfigEnvelope (Target := Peer) wire.ConfigEnvelope [] =
    ([], Panics nil_dereference).
Proof. reflexivity. Qed.

(** Three targets, one with status 500 and two with blocks: two blocks
    come back, with one error for the failed target. *)
Example QueryBlock_partial_failure :
  value (QueryBlock (Target := Peer) testChannel true 7
           [peer "peer1" 200 config_block; peer "peer2" 500 [];
            peer "peer3" 200 (block_of 3)] None) =
    Returns
      ([Some {| Block_Data := Some {| BlockData_Data :=
                  [envelope_with (payload_with (channel_header 1))] |} |};
        Some {| Block_Data := Some {| BlockData_Data :=
                  [envelope_with (payload_with (channel_header 3))] |} |}],
       Some (errors_Errorf "bad status from %s (%d)"
               [ArgString "peer2"; ArgInt 500])).
Proof. reflexivity. Qed.

(** Responses without the embedded proposal response make getConfigBlocks
    panic, whatever the other responses hold. *)
Example getConfigBlocks_bare_response :
  getConfigBlocks (Target := Peer)
    [respond (peer "peer1" 200 config_block); bare "peer2"] =
    ([], Panics nil_dereference).
Proof. reflexivity. Qed.
End MoreExamples.
